(** * The balancing plank of js/common/model/Plank.js

    A shallow embedding of the plank model: its constants, its state, the
    JavaScript run-time behaviour its methods rely on (array methods,
    conversions, exceptions, the receiver of a callback), and the methods
    themselves, followed by the properties established about them.

    Numbers.  JavaScript numbers are modelled as exact rationals [Q]; the
    decimal constants of the source are written as they appear there.
    Where the source can produce a value that is not a number ([NaN],
    [undefined], an object or a text in the place of a number), the value
    has the type [Js.Num], whose [None] is such a value.  The numeric
    fields of the plank itself are numbers: the constructor is modelled
    for the locations at which [Math.asin] has a value, and the time steps
    are finite.

    Collaborators.  DOT (Vector2, Matrix3), KITE (Shape) and [Math] are
    libraries outside the repository; the operations of theirs that the
    plank calls are the fields of the class [Geometry].  The general
    properties below hold for all instances of it; the example worlds are
    evaluated with the instance [level_geometry].  [ObservableArray] is
    used by the plank through the array methods [push], [splice], [slice],
    [indexOf], [forEach], [length] and indexing, and is modelled as a
    JavaScript array.

    Masses are objects shared between the plank and the rest of the
    program: the world is the plank together with a store of mass objects,
    and the plank's lists hold references into it. *)

From Stdlib Require Import QArith Qabs Qround Lia Lqa.
From stdpp Require Import gmap strings list.

Local Open Scope Q_scope.

(** ** JavaScript run-time behaviour *)

Module Js.

(** The exceptions the plank can raise. *)
Inductive Exception : Type :=
| TypeError (msg : string)
| Error (msg : string)
| AssertionFailed.

(** How the evaluation of a call ends. *)
Inductive Completion (A : Type) : Type :=
| Normal (a : A)
| Throw (e : Exception).
Arguments Normal {A} a.
Arguments Throw {A} e.

(** The receiver ([this]) of a function body.  The file is in strict mode
    (line 9), so a callback called by [forEach] without a [thisArg] runs
    with [this] undefined. *)
Inductive Receiver : Type :=
| ThisPlank
| ThisUndefined.

(** Comparisons of numbers as booleans. *)
Definition ltb (a b : Q) : bool := negb (Qle_bool b a).
Definition gtb (a b : Q) : bool := ltb b a.
Definition leb (a b : Q) : bool := Qle_bool a b.
Definition geb (a b : Q) : bool := Qle_bool b a.

(** A relational comparison with an operand that may be [undefined] or
    [NaN] ([None]) is false. *)
Definition geb_opt (a : Q) (b : option Q) : bool :=
  match b with
  | Some b' => geb a b'
  | None => false
  end.

(** A value in a place where the program expects a number: [Some q] is
    the number [q], [None] is anything that is not a number ([NaN],
    [undefined], an object, a text that does not read as a number).
    Arithmetic with such an operand gives such a value again ([+] makes a
    text of a text or an object and a number, the other operators make
    [NaN]), and a relational comparison of it with a number or with [NaN]
    is false; the plank compares no two texts. *)
Definition Num : Type := option Q.

Definition arith (op : Q -> Q -> Q) (a b : Num) : Num :=
  match a, b with
  | Some a', Some b' => Some (op a' b')
  | _, _ => None
  end.
Definition add : Num -> Num -> Num := arith Qplus.
Definition sub : Num -> Num -> Num := arith Qminus.
Definition mul : Num -> Num -> Num := arith Qmult.
Definition neg (a : Num) : Num := option_map Qopp a.
Definition abs (a : Num) : Num := option_map Qabs a.

Definition relation (cmp : Q -> Q -> bool) (a b : Num) : bool :=
  match a, b with
  | Some a', Some b' => cmp a' b'
  | _, _ => false
  end.
Definition lt : Num -> Num -> bool := relation ltb.
Definition gt : Num -> Num -> bool := relation gtb.
Definition le : Num -> Num -> bool := relation leb.
Definition ge : Num -> Num -> bool := relation geb.

(** [Number(b)] for a boolean and the truth value of a number. *)
Definition number_of_bool (b : bool) : Q := if b then 1 else 0.
Definition truthy (n : Q) : bool := negb (Qeq_bool n 0).

(** [ToInteger] on a finite number: truncation towards zero. *)
Definition to_integer (q : Q) : Z := Qnum q ÷ Zpos (Qden q).

(** [Array.prototype.indexOf]: the first index holding [v], or -1. *)
Fixpoint indexOf_from `{EqDecision A} (l : list A) (v : A) (i : Z) : Z :=
  match l with
  | [] => (-1)%Z
  | a :: l' => if decide (a = v) then i else indexOf_from l' v (i + 1)%Z
  end.
Definition indexOf `{EqDecision A} (l : list A) (v : A) : Z :=
  indexOf_from l v 0%Z.

(** [Array.prototype.splice(start, deleteCount)]: the pair of the removed
    elements, which is what the call returns, and of the elements left in
    the array.  A negative [start] counts from the end. *)
Definition splice {A} (l : list A) (start deleteCount : Z) : list A * list A :=
  let len := Z.of_nat (length l) in
  let actualStart :=
    if (start <? 0)%Z then Z.max (len + start) 0 else Z.min start len in
  let actualDeleteCount := Z.min (Z.max deleteCount 0) (len - actualStart) in
  let s := Z.to_nat actualStart in
  let d := Z.to_nat actualDeleteCount in
  (take d (drop s l), take s l ++ drop (s + d) l).

(** A JavaScript array: its indexed elements, and the properties stored
    on it under keys that are not indices.  [a[k] = v] with a key that is
    not a number adds such a property and leaves [length] as it is. *)
Record Array (A : Type) : Type := mkArray {
  elems : list A;
  props : gmap string Num
}.
Arguments mkArray {A} elems props.
Arguments elems {A} a.
Arguments props {A} a.

Definition empty_array {A} : Array A := mkArray [] ∅.
Definition length {A} (a : Array A) : nat := List.length (elems a).
Definition set_prop {A} (k : string) (v : Num) (a : Array A) : Array A :=
  mkArray (elems a) (<[k := v]> (props a)).

(** [String(o)] for an object without a [toString] of its own. *)
Definition object_key : string := "[object Object]".

(** [ToNumber] of an array whose elements are objects.  The array is
    first turned into the string [join(",")]: the empty string for an
    array without elements, which is the number 0, and otherwise a text
    made of [object_key], which is [NaN]. *)
Definition to_number {A} (a : Array A) : option Q :=
  match elems a with
  | [] => Some 0
  | _ :: _ => None
  end.

(** The number of rounds of [for (i = 0; i < bound; i++)] whose body
    leaves [bound] alone: none when [bound] is [NaN]. *)
Definition rounds (bound : option Q) : nat :=
  match bound with
  | Some n => Z.to_nat (Qceiling n)
  | None => 0%nat
  end.

End Js.

Export Js(Completion, Normal, Throw, Exception, TypeError, Error,
        AssertionFailed, Receiver, ThisPlank, ThisUndefined).

(** ** Geometry *)

Module Vector2.
Record t : Type := mk { x : Q; y : Q }.
Definition plus (a b : t) : t := mk (x a + x b) (y a + y b).

(** A vector object whose fields need not hold numbers: nothing in the
    constructor or in an assignment checks what is stored. *)
Record raw : Type := mkRaw { rawX : Js.Num; rawY : Js.Num }.
Definition raw_of (v : t) : raw := mkRaw (Some (x v)) (Some (y v)).
Definition raw_plus (a b : raw) : raw :=
  mkRaw (Js.add (rawX a) (rawX b)) (Js.add (rawY a) (rawY b)).

(** The vector of numbers a vector object holds, if both fields do. *)
Definition numbers (v : raw) : option t :=
  match rawX v, rawY v with
  | Some a, Some b => Some (mk a b)
  | _, _ => None
  end.

(** [new Vector2( v )] with a vector object as the only argument.  The
    constructor takes [x] and [y], as at lines 84, 188, 201, 266, 333 and
    430: here [x] holds the object [v], which is not a number, and [y] is
    undefined. *)
Definition of_object (v : t) : raw := mkRaw None None.
End Vector2.

Module Bounds2.
Record t : Type := mk { minX : Q; minY : Q; maxX : Q; maxY : Q }.
End Bounds2.

(** A shape, as far as the plank reads it: its bounds. *)
Record Shape : Type := mkShape { bounds : Bounds2.t }.

(** The library operations the plank calls. *)
Class Geometry : Type := {
  (** [v.rotated( angle )] *)
  rotated : Vector2.t -> Q -> Vector2.t;
  (** [a.distance( b )] *)
  distance : Vector2.t -> Vector2.t -> Q;
  (** [Matrix3.rotationAround( angle, x, y ).transformed( point )] *)
  rotatedAround : Q -> Q -> Q -> Vector2.t -> Vector2.t;
  (** [shape.transformed( Matrix3.rotationAround( angle, x, y ) )] *)
  shapeRotatedAround : Q -> Q -> Q -> Shape -> Shape;
  (** [shape.minY] and [shape.y], read by [updatePlank]; [None] when the
      shape object has no such property. *)
  shapeMinY : Shape -> option Q;
  shapeY : Shape -> option Q;
  (** [Math.tan], and [Math.asin] on the numbers from -1 to 1 *)
  tan : Q -> Q;
  asin : Q -> Q
}.

(** [a.distance( b )] for vector objects: not a number as soon as a field
    of one of them is not. *)
Definition distance_raw `{Geometry} (a b : Vector2.raw) : Js.Num :=
  match Vector2.numbers a, Vector2.numbers b with
  | Some a', Some b' => Some (distance a' b')
  | _, _ => None
  end.

(** [Math.asin( q )]: not a number outside of -1 .. 1. *)
Definition Math_asin `{Geometry} (q : Q) : Js.Num :=
  if Js.leb (Qabs q) 1 then Some (asin q) else None.

(** An instance for a plank that lies level: rotations by the angle 0,
    the slope 0, the arc sine replaced by its first-order term, and the
    distance between two points of a horizontal line. *)
Definition level_geometry : Geometry := {|
  rotated := fun v _ => v;
  distance := fun a b =>
    Qabs (Vector2.x a - Vector2.x b) + Qabs (Vector2.y a - Vector2.y b);
  rotatedAround := fun _ _ _ p => p;
  shapeRotatedAround := fun _ _ _ s => s;
  shapeMinY := fun _ => None;
  shapeY := fun _ => None;
  tan := fun _ => 0;
  asin := fun q => q
|}.

(** ** Data model *)

Definition MassId : Type := nat.

Module Mass.
(** Modelled from the spec: the mass objects of common/model/Mass.js, which
    is not among the sources.  The fields are those the plank reads and
    writes ([position], [rotationAngle], [onPlank], [mass], the
    [userControlled] property and the observers linked to it) and the
    height used by [getMiddlePoint] of ImageMass.js. *)
Record t : Type := mk {
  position : Vector2.raw;
  rotationAngle : Q;
  mass : Q;
  onPlank : bool;
  height : Q;
  userControlled : bool;
  observers : nat
}.
Definition blank : t := mk (Vector2.raw_of (Vector2.mk 0 0)) 0 0 false 0 false 0.
Definition set_position (v : Vector2.raw) (m : t) : t :=
  mk v (rotationAngle m) (mass m) (onPlank m) (height m) (userControlled m)
     (observers m).
Definition set_rotationAngle (a : Q) (m : t) : t :=
  mk (position m) a (mass m) (onPlank m) (height m) (userControlled m)
     (observers m).
Definition set_onPlank (b : bool) (m : t) : t :=
  mk (position m) (rotationAngle m) (mass m) b (height m) (userControlled m)
     (observers m).
Definition link (m : t) : t :=
  mk (position m) (rotationAngle m) (mass m) (onPlank m) (height m)
     (userControlled m) (S (observers m)).
(** ImageMass.js, lines 59-62 *)
Definition getMiddlePoint (m : t) : Vector2.raw :=
  Vector2.mkRaw (Vector2.rawX (position m))
                (Js.add (Vector2.rawY (position m)) (Some (height m / 2))).
End Mass.

(** Modelled from the spec: the force vector of common/model/MassForceVector.js,
    which is not among the sources: one per attached mass, holding the mass
    it belongs to (read as [.mass] at line 234).  Its [update] refreshes the
    indicator's own coordinates, which the plank never reads. *)
Record MassForceVector : Type := mkMassForceVector { fvMass : MassId }.

(** The elements the loops over [massDistancePairs] expect (lines 222, 254):
    objects with a [mass] and a [distance]. *)
Record MassDistancePair : Type := mkMassDistancePair {
  pairMass : MassId;
  pairDistance : Q
}.

(** The fields of a plank (lines 48-102).  [massForceVectors] and
    [tickMarks] are never touched again after construction and are left
    out; [bottomCenterPoint] is the field [updatePlank] creates, [None]
    while it is undefined or not a number. *)
Record Plank : Type := mkPlank {
  bottomCenterLocation : Vector2.t;
  tiltAngle : Q;
  shape : Shape;
  userControlled : bool;
  massesOnSurface : list MassId;
  forceVectors : list MassForceVector;
  pivotPoint : Vector2.t;
  columnState : string;
  angularVelocity : Q;
  currentNetTorque : Q;
  maxTiltAngle : Q;
  massDistancePairs : Js.Array MassDistancePair;
  unrotatedShape : Shape;
  turningRight : bool;
  bottomCenterPoint : option Vector2.t
}.

(** The plank together with the mass objects it holds references to. *)
Record World : Type := mkWorld {
  plank : Plank;
  masses : gmap MassId Mass.t
}.

(** Assignments to the fields of the plank. *)
Definition set_tiltAngle (v : Q) (p : Plank) : Plank :=
  {| bottomCenterLocation := bottomCenterLocation p; tiltAngle := v;
     shape := shape p; userControlled := userControlled p;
     massesOnSurface := massesOnSurface p; forceVectors := forceVectors p;
     pivotPoint := pivotPoint p; columnState := columnState p;
     angularVelocity := angularVelocity p;
     currentNetTorque := currentNetTorque p;
     maxTiltAngle := maxTiltAngle p;
     massDistancePairs := massDistancePairs p;
     unrotatedShape := unrotatedShape p; turningRight := turningRight p;
     bottomCenterPoint := bottomCenterPoint p |}.
Definition set_shape (v : Shape) (p : Plank) : Plank :=
  {| bottomCenterLocation := bottomCenterLocation p;
     tiltAngle := tiltAngle p; shape := v;
     userControlled := userControlled p;
     massesOnSurface := massesOnSurface p; forceVectors := forceVectors p;
     pivotPoint := pivotPoint p; columnState := columnState p;
     angularVelocity := angularVelocity p;
     currentNetTorque := currentNetTorque p;
     maxTiltAngle := maxTiltAngle p;
     massDistancePairs := massDistancePairs p;
     unrotatedShape := unrotatedShape p; turningRight := turningRight p;
     bottomCenterPoint := bottomCenterPoint p |}.
Definition set_userControlled (v : bool) (p : Plank) : Plank :=
  {| bottomCenterLocation := bottomCenterLocation p;
     tiltAngle := tiltAngle p; shape := shape p; userControlled := v;
     massesOnSurface := massesOnSurface p; forceVectors := forceVectors p;
     pivotPoint := pivotPoint p; columnState := columnState p;
     angularVelocity := angularVelocity p;
     currentNetTorque := currentNetTorque p;
     maxTiltAngle := maxTiltAngle p;
     massDistancePairs := massDistancePairs p;
     unrotatedShape := unrotatedShape p; turningRight := turningRight p;
     bottomCenterPoint := bottomCenterPoint p |}.
Definition set_massesOnSurface (v : list MassId) (p : Plank) : Plank :=
  {| bottomCenterLocation := bottomCenterLocation p;
     tiltAngle := tiltAngle p; shape := shape p;
     userControlled := userControlled p; massesOnSurface := v;
     forceVectors := forceVectors p; pivotPoint := pivotPoint p;
     columnState := columnState p; angularVelocity := angularVelocity p;
     currentNetTorque := currentNetTorque p;
     maxTiltAngle := maxTiltAngle p;
     massDistancePairs := massDistancePairs p;
     unrotatedShape := unrotatedShape p; turningRight := turningRight p;
     bottomCenterPoint := bottomCenterPoint p |}.
Definition set_forceVectors (v : list MassForceVector) (p : Plank) : Plank :=
  {| bottomCenterLocation := bottomCenterLocation p;
     tiltAngle := tiltAngle p; shape := shape p;
     userControlled := userControlled p;
     massesOnSurface := massesOnSurface p; forceVectors := v;
     pivotPoint := pivotPoint p; columnState := columnState p;
     angularVelocity := angularVelocity p;
     currentNetTorque := currentNetTorque p;
     maxTiltAngle := maxTiltAngle p;
     massDistancePairs := massDistancePairs p;
     unrotatedShape := unrotatedShape p; turningRight := turningRight p;
     bottomCenterPoint := bottomCenterPoint p |}.
Definition set_columnState (v : string) (p : Plank) : Plank :=
  {| bottomCenterLocation := bottomCenterLocation p;
     tiltAngle := tiltAngle p; shape := shape p;
     userControlled := userControlled p;
     massesOnSurface := massesOnSurface p; forceVectors := forceVectors p;
     pivotPoint := pivotPoint p; columnState := v;
     angularVelocity := angularVelocity p;
     currentNetTorque := currentNetTorque p;
     maxTiltAngle := maxTiltAngle p;
     massDistancePairs := massDistancePairs p;
     unrotatedShape := unrotatedShape p; turningRight := turningRight p;
     bottomCenterPoint := bottomCenterPoint p |}.
Definition set_angularVelocity (v : Q) (p : Plank) : Plank :=
  {| bottomCenterLocation := bottomCenterLocation p;
     tiltAngle := tiltAngle p; shape := shape p;
     userControlled := userControlled p;
     massesOnSurface := massesOnSurface p; forceVectors := forceVectors p;
     pivotPoint := pivotPoint p; columnState := columnState p;
     angularVelocity := v; currentNetTorque := currentNetTorque p;
     maxTiltAngle := maxTiltAngle p;
     massDistancePairs := massDistancePairs p;
     unrotatedShape := unrotatedShape p; turningRight := turningRight p;
     bottomCenterPoint := bottomCenterPoint p |}.
Definition set_currentNetTorque (v : Q) (p : Plank) : Plank :=
  {| bottomCenterLocation := bottomCenterLocation p;
     tiltAngle := tiltAngle p; shape := shape p;
     userControlled := userControlled p;
     massesOnSurface := massesOnSurface p; forceVectors := forceVectors p;
     pivotPoint := pivotPoint p; columnState := columnState p;
     angularVelocity := angularVelocity p; currentNetTorque := v;
     maxTiltAngle := maxTiltAngle p;
     massDistancePairs := massDistancePairs p;
     unrotatedShape := unrotatedShape p; turningRight := turningRight p;
     bottomCenterPoint := bottomCenterPoint p |}.
Definition set_massDistancePairs (v : Js.Array MassDistancePair) (p : Plank) : Plank :=
  {| bottomCenterLocation := bottomCenterLocation p;
     tiltAngle := tiltAngle p; shape := shape p;
     userControlled := userControlled p;
     massesOnSurface := massesOnSurface p; forceVectors := forceVectors p;
     pivotPoint := pivotPoint p; columnState := columnState p;
     angularVelocity := angularVelocity p;
     currentNetTorque := currentNetTorque p;
     maxTiltAngle := maxTiltAngle p; massDistancePairs := v;
     unrotatedShape := unrotatedShape p; turningRight := turningRight p;
     bottomCenterPoint := bottomCenterPoint p |}.
Definition set_turningRight (v : bool) (p : Plank) : Plank :=
  {| bottomCenterLocation := bottomCenterLocation p;
     tiltAngle := tiltAngle p; shape := shape p;
     userControlled := userControlled p;
     massesOnSurface := massesOnSurface p; forceVectors := forceVectors p;
     pivotPoint := pivotPoint p; columnState := columnState p;
     angularVelocity := angularVelocity p;
     currentNetTorque := currentNetTorque p;
     maxTiltAngle := maxTiltAngle p;
     massDistancePairs := massDistancePairs p;
     unrotatedShape := unrotatedShape p; turningRight := v;
     bottomCenterPoint := bottomCenterPoint p |}.
Definition set_bottomCenterPoint (v : option Vector2.t) (p : Plank) : Plank :=
  {| bottomCenterLocation := bottomCenterLocation p;
     tiltAngle := tiltAngle p; shape := shape p;
     userControlled := userControlled p;
     massesOnSurface := massesOnSurface p; forceVectors := forceVectors p;
     pivotPoint := pivotPoint p; columnState := columnState p;
     angularVelocity := angularVelocity p;
     currentNetTorque := currentNetTorque p;
     maxTiltAngle := maxTiltAngle p;
     massDistancePairs := massDistancePairs p;
     unrotatedShape := unrotatedShape p; turningRight := turningRight p;
     bottomCenterPoint := v |}.

(** ** Evaluation: state and exceptions

    A method runs on the world and ends normally with a value or by
    throwing; the world it leaves behind is kept in both cases, since the
    assignments made before a [throw] stay. *)

Definition M (A : Type) : Type := World -> Completion A * World.

Definition ret {A} (a : A) : M A := fun w => (Normal a, w).
Definition throw {A} (e : Exception) : M A := fun w => (Throw e, w).
Definition bind {A B} (c : M A) (k : A -> M B) : M B :=
  fun w =>
    match c w with
    | (Normal a, w') => k a w'
    | (Throw e, w') => (Throw e, w')
    end.

Notation "'let*' x ':=' c 'in' k" := (bind c (fun x => k))
  (at level 10, x name, c at level 100, k at level 200).
Notation "c ';;' k" := (bind c (fun _ => k))
  (at level 100, k at level 200, right associativity).

(** Reading the plank, assigning to its fields, reading and updating a
    mass object. *)
Definition get {A} (f : Plank -> A) : M A := fun w => (Normal (f (plank w)), w).
Definition assign (f : Plank -> Plank) : M unit :=
  fun w => (Normal tt, mkWorld (f (plank w)) (masses w)).
Definition mass_of (w : World) (m : MassId) : Mass.t :=
  default Mass.blank (masses w !! m).
Definition get_mass {A} (m : MassId) (f : Mass.t -> A) : M A :=
  fun w => (Normal (f (mass_of w m)), w).
Definition assign_mass (m : MassId) (f : Mass.t -> Mass.t) : M unit :=
  fun w => (Normal tt, mkWorld (plank w) (<[m := f (mass_of w m)]> (masses w))).

(** The world a method leaves and the way it ends. *)
Definition exec {A} (c : M A) (w : World) : World := snd (c w).
Definition outcome {A} (c : M A) (w : World) : Completion A := fst (c w).

Definition lift {A} (f : Plank -> Completion A) : M A :=
  fun w => (f (plank w), w).

(** [array.forEach( callback )]: the callback runs on the elements in
    order, with [this] undefined, until one call throws.  [S] is the type
    of the variables of the enclosing function that the callback updates. *)
Fixpoint forEach {A S} (l : list A) (callback : Receiver -> A -> S -> M S)
    (s : S) : M S :=
  match l with
  | [] => ret s
  | a :: l' => let* s' := callback ThisUndefined a s in forEach l' callback s'
  end.

(** [for ( var i = 0; i < n; i++ ) body], for a body without [break]. *)
Fixpoint for_indices {S} (indices : list nat) (body : nat -> S -> M S)
    (s : S) : M S :=
  match indices with
  | [] => ret s
  | i :: rest => let* s' := body i s in for_indices rest body s'
  end.
Definition for_range {S} (n : nat) (body : nat -> S -> M S) (s : S) : M S :=
  for_indices (seq 0 n) body s.

(** [this.name] inside a function body: a [TypeError] when [this] is
    undefined. *)
Definition member_of_this (this : Receiver) (name : string) : M unit :=
  match this with
  | ThisPlank => ret tt
  | ThisUndefined =>
      throw (TypeError ("Cannot read property '" +:+ name +:+ "' of undefined"))
  end.

(** [assert( condition )] *)
Definition assert (condition : bool) : M unit :=
  if condition then ret tt else throw AssertionFailed.

(** ** The plank *)

(** Constants, lines 21-26. *)
Definition PLANK_LENGTH : Q := 4.5.
Definition PLANK_THICKNESS : Q := 0.05.
Definition PLANK_MASS : Q := 75.
Definition INTER_SNAP_TO_MARKER_DISTANCE : Q := 0.25.
Definition NUM_SNAP_TO_LOCATIONS : Z :=
  Qfloor (PLANK_LENGTH / INTER_SNAP_TO_MARKER_DISTANCE - 1).
Definition MOMENT_OF_INERTIA : Q :=
  PLANK_MASS * ((PLANK_LENGTH * PLANK_LENGTH) + (PLANK_THICKNESS * PLANK_THICKNESS)) / 12.

Section Methods.
Context {G : Geometry}.

(** The fields the constructor sets, lines 34-103, for the number [limit]
    that [Math.asin] gives at line 89.  The outline drawn at lines 38-45
    spans [-PLANK_LENGTH / 2 .. PLANK_LENGTH / 2] by [0 .. PLANK_THICKNESS]
    and is moved to [location]. *)
Definition constructed (location pivotPoint : Vector2.t) (columnState : string)
    (limit : Q) : Plank :=
  let initialPlankShape :=
    mkShape (Bounds2.mk (Vector2.x location - PLANK_LENGTH / 2)
                        (Vector2.y location)
                        (Vector2.x location + PLANK_LENGTH / 2)
                        (Vector2.y location + PLANK_THICKNESS)) in
  {| bottomCenterLocation := location;
     tiltAngle := 0;
     shape := initialPlankShape;
     userControlled := false;
     massesOnSurface := [];
     forceVectors := [];
     pivotPoint := Vector2.mk (Vector2.x pivotPoint) (Vector2.y pivotPoint);
     columnState := columnState;
     angularVelocity := 0;
     currentNetTorque := 0;
     maxTiltAngle := limit;
     massDistancePairs := Js.empty_array;
     unrotatedShape := initialPlankShape;
     turningRight := true;
     bottomCenterPoint := None |}.

(** The constructor, lines 34-103.  At a location more than
    [PLANK_LENGTH / 2] above or below the ground [Math.asin] gives [NaN]
    for [maxTiltAngle]; the fields of a [Plank] are numbers, so there the
    constructor has no plank of this model ([None]). *)
Definition newPlank (location pivotPoint : Vector2.t) (columnState : string)
    : option Plank :=
  option_map (constructed location pivotPoint columnState)
             (Math_asin (Vector2.y location / (PLANK_LENGTH / 2))).

(** [getPlankSurfaceCenter], lines 359-364.  [bottomCenterLocation] is
    handed to [new Vector2] as its only argument; [plus] adds the fields
    of the two vectors. *)
Definition getPlankSurfaceCenter (p : Plank) : Vector2.raw :=
  Vector2.raw_plus
    (Vector2.of_object (bottomCenterLocation p))
    (Vector2.raw_of (rotated (Vector2.mk 0 PLANK_THICKNESS) (tiltAngle p))).

(** [getSurfaceYValue], lines 368-375. *)
Definition getSurfaceYValue (p : Plank) (xValue : Js.Num) : Js.Num :=
  let m := Some (tan (tiltAngle p)) in
  let b := Js.sub (Vector2.rawY (getPlankSurfaceCenter p))
                  (Js.mul m (Vector2.rawX (getPlankSurfaceCenter p))) in
  Js.add (Js.mul m xValue) b.

(** [isPointAbovePlank], lines 377-380. *)
Definition isPointAbovePlank (p : Plank) (pt : Vector2.raw) : bool :=
  let plankBounds := bounds (shape p) in
  Js.ge (Vector2.rawX pt) (Some (Bounds2.minX plankBounds))
  && Js.le (Vector2.rawX pt) (Some (Bounds2.maxX plankBounds))
  && Js.gt (Vector2.rawY pt) (getSurfaceYValue p (Vector2.rawX pt)).

(** [getMassDistanceFromCenter], lines 252-259.  The bound of the loop is
    the array [massDistancePairs] itself, converted to a number. *)
Fixpoint getMassDistanceFromCenter_loop (pairs : list MassDistancePair)
    (mass : MassId) (indices : list nat) : Completion Q :=
  match indices with
  | [] => Normal 0
  | i :: rest =>
      match pairs !! i with
      | None => Throw (TypeError "Cannot read property 'mass' of undefined")
      | Some entry =>
          if decide (pairMass entry = mass) then Normal (pairDistance entry)
          else getMassDistanceFromCenter_loop pairs mass rest
      end
  end.
Definition getMassDistanceFromCenter (p : Plank) (mass : MassId) : Completion Q :=
  getMassDistanceFromCenter_loop
    (Js.elems (massDistancePairs p)) mass
    (seq 0 (Js.rounds (Js.to_number (massDistancePairs p)))).

(** [updateNetTorque], lines 397-413.  Lines 402 and 405 are commented out
    in the source; the last assignment parses as
    [( 1 * this.turningRight ) ? 1 : -1]. *)
Definition updateNetTorque (p : Plank) : Plank :=
  let p := set_currentNetTorque 0 p in
  if String.eqb (columnState p) "none" then
    let p :=
      if (turningRight p && Js.ltb (maxTiltAngle p - tiltAngle p) 0.001)
         || (negb (turningRight p) && Js.ltb (maxTiltAngle p + tiltAngle p) 0.001)
      then set_turningRight (negb (turningRight p)) p
      else p in
    set_currentNetTorque
      (if Js.truthy (1 * Js.number_of_bool (turningRight p)) then 1 else -1) p
  else p.

(** [getTorqueDueToMasses], lines 415-422; its only call, line 402, is
    commented out. *)
Definition getTorqueDueToMasses (w : World) : Js.Num :=
  fold_left
    (fun torque mass =>
       Js.add torque
         (Js.sub (Some (Vector2.x (pivotPoint (plank w))))
                 (Js.mul (Vector2.rawX (Mass.position (mass_of w mass)))
                         (Some (Mass.mass (mass_of w mass))))))
    (massesOnSurface (plank w)) (Some 0).

(** [updatePlank], lines 261-269. *)
Definition updatePlank : M unit :=
  let* pivot := get pivotPoint in
  let* unrotated := get unrotatedShape in
  let* angle := get tiltAngle in
  if Js.geb_opt (Vector2.y pivot) (shapeMinY unrotated) then
    throw (Error "Pivot point cannot be below the plank.")
  else
    assign (set_shape
              (shapeRotatedAround angle (Vector2.x pivot) (Vector2.y pivot) unrotated)) ;;
    assign (set_bottomCenterPoint
              (match shapeY unrotated with
               | Some y =>
                   Some (Vector2.plus pivot
                           (rotated (Vector2.mk 0 (y - Vector2.y pivot)) angle))
               | None => None
               end)).

(** [updateMassPositions], lines 196-213.  The first callback reads
    [this.getMassDistanceFromCenter] and [this.tiltAngle]; the second one
    calls [update] of each force vector. *)
Definition updateMassPositions : M unit :=
  let* onSurface := get massesOnSurface in
  forEach onSurface
    (fun this mass _ =>
       member_of_this this "getMassDistanceFromCenter" ;;
       let* d := lift (fun p => getMassDistanceFromCenter p mass) in
       member_of_this this "tiltAngle" ;;
       let* angle := get tiltAngle in
       let vectorFromCenterToMass := rotated (Vector2.mk d 0) angle in
       let* center := get getPlankSurfaceCenter in
       assign_mass mass
         (Mass.set_position
            (Vector2.raw_plus center (Vector2.raw_of vectorFromCenterToMass))) ;;
       let* angle' := get tiltAngle in
       assign_mass mass (Mass.set_rotationAngle angle'))
    tt ;;
  let* vectors := get forceVectors in
  forEach vectors (fun _ _ _ => ret tt) tt.

(** [step], lines 111-125: torque, acceleration, velocity, and the angle
    before it is limited. *)
Definition advance (dt : Q) (p : Plank) : Plank :=
  let p := updateNetTorque p in
  let angularAcceleration := currentNetTorque p / MOMENT_OF_INERTIA in
  let angularAcceleration :=
    if Js.gtb (Qabs angularAcceleration) 0.00001 then angularAcceleration else 0 in
  let p := set_angularVelocity (angularVelocity p + angularAcceleration) p in
  let p := set_angularVelocity
             (if Js.gtb (Qabs (angularVelocity p)) 0.00001
              then angularVelocity p else 0) p in
  set_tiltAngle (tiltAngle p + angularVelocity p * dt) p.

(** [step], lines 126-135: the limit at the ground and the snap to level. *)
Definition limit (p : Plank) : Plank :=
  if Js.gtb (Qabs (tiltAngle p)) (maxTiltAngle p) then
    let p := set_tiltAngle
               (maxTiltAngle p * (if Js.ltb (tiltAngle p) 0 then -1 else 1)) p in
    set_angularVelocity 0 p
  else if Js.ltb (Qabs (tiltAngle p)) 0.0001 then
    set_tiltAngle 0 p
  else p.

(** [step], lines 108-148.  [previousTiltAngle] is read at line 124; the
    lines before it leave [tiltAngle] as it was. *)
Definition step (dt : Q) : M unit :=
  let* controlled := get userControlled in
  if negb controlled then
    let* previousTiltAngle := get tiltAngle in
    assign (fun p => limit (advance dt p)) ;;
    let* angle := get tiltAngle in
    if negb (Qeq_bool angle previousTiltAngle) then
      updatePlank ;;
      updateMassPositions
    else ret tt
  else ret tt.

(** [forceAngle], [forceToLevelAndStill], [forceToMaxAndStill],
    lines 313-330. *)
Definition forceAngle (angle : Q) : M unit :=
  assign (set_angularVelocity 0) ;;
  assign (set_tiltAngle angle) ;;
  updatePlank ;;
  updateMassPositions.
Definition forceToLevelAndStill : M unit := forceAngle 0.0.
Definition forceToMaxAndStill : M unit :=
  let* angle := get maxTiltAngle in forceAngle angle.

(** [snapToLocations.add( v )], line 431.  [snapToLocations] is made by
    [new Array( n )], and arrays have no method [add]: the call throws
    once its argument is evaluated. *)
Definition array_add {A} (a : list (option A)) (v : A) : M (list (option A)) :=
  throw (TypeError "snapToLocations.add is not a function").

(** [getSnapToLocations], lines 424-435.  [new Array( n )] is an array of
    [n] empty slots ([None]). *)
Definition getSnapToLocations : M (list (option Vector2.t)) :=
  let snapToLocations := repeat None (Z.to_nat NUM_SNAP_TO_LOCATIONS) in
  let* angle := get tiltAngle in
  let* pivot := get pivotPoint in
  let* unrotatedY := get (fun p => Bounds2.maxY (bounds (unrotatedShape p))) in
  let* unrotatedMinX := get (fun p => Bounds2.minX (bounds (unrotatedShape p))) in
  for_range (Z.to_nat NUM_SNAP_TO_LOCATIONS)
    (fun i snapToLocations =>
       let unrotatedPoint :=
         Vector2.mk (unrotatedMinX
                     + (inject_Z (Z.of_nat i) + 1) * INTER_SNAP_TO_MARKER_DISTANCE)
                    unrotatedY in
       array_add snapToLocations
         (rotatedAround angle (Vector2.x pivot) (Vector2.y pivot) unrotatedPoint))
    snapToLocations.

(** [_.without( array, value )]: the array without the elements identical
    to [value]. *)
Definition without {A B} (same : A -> B -> bool) (l : list A) (v : B) : list A :=
  filter (fun a => same a v = false) l.

(** Line 290 hands a mass to [_.without] on the array of locations; a
    location and a mass are never the same object. *)
Definition location_is_mass (location : option Vector2.t) (mass : MassId) : bool :=
  false.

(** Lines 296-305, the callback: the closest location so far, updated with
    one candidate.  [forEach] skips the empty slots of an array. *)
Definition closer (p : Vector2.raw) (closestOpenLocation : option Vector2.t)
    (candidate : option Vector2.t) : option Vector2.t :=
  match candidate with
  | None => closestOpenLocation
  | Some candidateOpenLocation =>
      if Js.le (Js.abs (Js.sub (Some (Vector2.x candidateOpenLocation))
                               (Vector2.rawX p)))
               (Some INTER_SNAP_TO_MARKER_DISTANCE)
      then
        match closestOpenLocation with
        | None => Some candidateOpenLocation
        | Some closest =>
            if Js.lt (distance_raw (Vector2.raw_of candidateOpenLocation) p)
                     (distance_raw (Vector2.raw_of closest) p)
            then Some candidateOpenLocation
            else closestOpenLocation
        end
      else closestOpenLocation
  end.

(** Lines 276-306: what [getOpenMassDroppedLocation] does with the array
    of locations once it has it. *)
Definition chooseOpenLocation (p : Vector2.raw)
    (candidateOpenLocations : list (option Vector2.t)) : M (option Vector2.t) :=
  let candidateOpenLocations :=
    if (Z.rem NUM_SNAP_TO_LOCATIONS 2 =? 1)%Z then
      snd (Js.splice candidateOpenLocations
             (Js.to_integer (inject_Z NUM_SNAP_TO_LOCATIONS / 2)) 1)
    else candidateOpenLocations in
  let copyOfCandidateLocations := candidateOpenLocations in
  let* onSurface := get massesOnSurface in
  let* candidateOpenLocations :=
    for_range (length copyOfCandidateLocations)
      (fun i candidates =>
         for_range (length onSurface)
           (fun j candidates =>
              match onSurface !! j, copyOfCandidateLocations !! i with
              | Some mass, Some (Some location) =>
                  let* position := get_mass mass Mass.position in
                  if Js.lt (distance_raw position (Vector2.raw_of location))
                           (Some (INTER_SNAP_TO_MARKER_DISTANCE / 10))
                  then ret (without location_is_mass candidates mass)
                  else ret candidates
              | _, _ => throw (TypeError "Cannot read property 'x' of undefined")
              end)
           candidates)
      candidateOpenLocations in
  ret (fold_left (closer p) candidateOpenLocations None).

(** [getOpenMassDroppedLocation], lines 273-307. *)
Definition getOpenMassDroppedLocation (p : Vector2.raw) : M (option Vector2.t) :=
  let* candidateOpenLocations := getSnapToLocations in
  chooseOpenLocation p candidateOpenLocations.

(** Lines 155-177: the branch of [addMassToSurface] taken when a location
    was found.  The key of [massDistancePairs[ mass ]] is the mass turned
    into a string. *)
Definition attach (mass : MassId) (closestOpenLocation : Vector2.t) : M bool :=
  assign_mass mass (Mass.set_position (Vector2.raw_of closestOpenLocation)) ;;
  assign_mass mass (Mass.set_onPlank true) ;;
  let* position := get_mass mass Mass.position in
  let* center := get getPlankSurfaceCenter in
  assign (fun p =>
            set_massDistancePairs
              (Js.set_prop Js.object_key
                 (Js.mul (distance_raw center position)
                         (Some (if Js.gt (Vector2.rawX position) (Vector2.rawX center)
                                then 1 else -1)))
                 (massDistancePairs p)) p) ;;
  assign (fun p => set_forceVectors (forceVectors p ++ [mkMassForceVector mass]) p) ;;
  assign_mass mass Mass.link ;;
  assign (fun p => set_massesOnSurface (massesOnSurface p ++ [mass]) p) ;;
  updateMassPositions ;;
  assign updateNetTorque ;;
  ret true.

(** [addMassToSurface], lines 151-181. *)
Definition addMassToSurface (mass : MassId) : M bool :=
  let* position := get_mass mass Mass.position in
  let* closestOpenLocation := getOpenMassDroppedLocation position in
  let* middle := get_mass mass Mass.getMiddlePoint in
  let* above := get (fun p => isPointAbovePlank p middle) in
  match above, closestOpenLocation with
  | true, Some location => attach mass location
  | _, _ => ret false
  end.

(** [addMassToSurfaceAt], lines 184-194. *)
Definition addMassToSurfaceAt (mass : MassId) (distanceFromCenter : Q) : M unit :=
  if Js.leb distanceFromCenter (PLANK_LENGTH / 2) then
    throw (Error "Warning: Attempt to add mass at invalid distance from center")
  else
    let* center := get getPlankSurfaceCenter in
    let* angle := get tiltAngle in
    let vectorToLocation :=
      Vector2.raw_plus center
        (Vector2.raw_of (rotated (Vector2.mk distanceFromCenter 0) angle)) in
    assign_mass mass
      (Mass.set_position
         (Vector2.mkRaw (Vector2.rawX vectorToLocation)
                        (Js.add (Vector2.rawY vectorToLocation) (Some 0.01)))) ;;
    let* position := get_mass mass Mass.position in
    let* above := get (fun p => isPointAbovePlank p position) in
    assert above ;;
    let* _ := addMassToSurface mass in
    ret tt.

(** Lines 221-226: the index of the first pair of the mass, if any. *)
Fixpoint pairIndex (pairs : list MassDistancePair) (mass : MassId) (i : Z) : option Z :=
  match pairs with
  | [] => None
  | entry :: rest =>
      if decide (pairMass entry = mass) then Some i
      else pairIndex rest mass (i + 1)%Z
  end.

(** Lines 233-238, with [indices] the values [j] takes. *)
Fixpoint removeForceVector (vectors : list MassForceVector) (mass : MassId)
    (indices : list nat) : Completion (list MassForceVector) :=
  match indices with
  | [] => Normal vectors
  | j :: rest =>
      match vectors !! j with
      | None => Throw (TypeError "Cannot read property 'mass' of undefined")
      | Some vector =>
          if decide (fvMass vector = mass)
          then Normal (snd (Js.splice vectors (Z.of_nat j) 1))
          else removeForceVector vectors mass rest
      end
  end.

(** [removeMassFromSurface], lines 215-242.  Lines 218 and 223 assign what
    [splice] returns, the removed elements, in a fresh array. *)
Definition removeMassFromSurface (mass : MassId) : M unit :=
  assign (fun p =>
            set_massesOnSurface
              (fst (Js.splice (massesOnSurface p)
                      (Js.indexOf (massesOnSurface p) mass) 1)) p) ;;
  assign (fun p =>
            match pairIndex (Js.elems (massDistancePairs p)) mass 0 with
            | Some i =>
                set_massDistancePairs
                  (Js.mkArray (fst (Js.splice (Js.elems (massDistancePairs p)) i 1)) ∅) p
            | None => p
            end) ;;
  assign_mass mass (Mass.set_rotationAngle 0) ;;
  assign_mass mass (Mass.set_onPlank false) ;;
  let* vectors := get forceVectors in
  let* n := get (fun p => Js.length (massDistancePairs p)) in
  match removeForceVector vectors mass (seq 0 n) with
  | Normal vectors' => assign (set_forceVectors vectors')
  | Throw e => throw e
  end ;;
  assign updateNetTorque.

(** [removeAllMasses], lines 244-250.  The plank has no method
    [removeMass]; the one defined at line 215 is [removeMassFromSurface]. *)
Definition removeAllMasses : M unit :=
  let* massesCopy := get massesOnSurface in
  forEach massesCopy
    (fun _ mass _ => throw (TypeError "thisPlank.removeMass is not a function"))
    tt.

(** [isBalanced], lines 387-395. *)
Definition isBalanced : M bool :=
  let* onSurface := get massesOnSurface in
  let* unCompensatedTorque :=
    forEach onSurface
      (fun this mass torque =>
         let* value := get_mass mass Mass.mass in
         member_of_this this "getMassDistanceFromCenter" ;;
         let* d := lift (fun p => getMassDistanceFromCenter p mass) in
         ret (torque + value * d))
      0 in
  ret (Js.ltb (Qabs unCompensatedTorque) 1E-6).

(** [isTickMarkOccupied], lines 332-350.  The center of the tick mark is
    the middle of its bounds.  The bound of the loop is the list
    [massesOnSurface] itself, converted to a number; [indices] are the
    values [i] takes.  Beyond the end of the list [massesOnSurface[ i ]] is
    undefined, for which [getMassDistanceFromCenter] finds no pair and
    returns 0. *)
Fixpoint isTickMarkOccupied_loop (p : Plank) (tickMarkDistanceFromCenter : Js.Num)
    (indices : list nat) : Completion bool :=
  match indices with
  | [] => Normal false
  | i :: rest =>
      match
        match massesOnSurface p !! i with
        | Some mass => getMassDistanceFromCenter p mass
        | None => Normal 0
        end
      with
      | Throw e => Throw e
      | Normal massDistanceFromCenter =>
          if Js.gt (Some massDistanceFromCenter)
                   (Js.sub tickMarkDistanceFromCenter (Some PLANK_THICKNESS))
             && Js.lt (Some massDistanceFromCenter)
                      (Js.add tickMarkDistanceFromCenter (Some PLANK_THICKNESS))
          then Normal true
          else isTickMarkOccupied_loop p tickMarkDistanceFromCenter rest
      end
  end.
Definition isTickMarkOccupied (p : Plank) (tickMark : Shape) : Completion bool :=
  let tickMarkCenter :=
    Vector2.mk
      ((Bounds2.minX (bounds tickMark) + Bounds2.maxX (bounds tickMark)) / 2)
      ((Bounds2.minY (bounds tickMark) + Bounds2.maxY (bounds tickMark)) / 2) in
  let tickMarkDistanceFromCenter :=
    distance_raw (getPlankSurfaceCenter p) (Vector2.raw_of tickMarkCenter) in
  let tickMarkDistanceFromCenter :=
    if Js.lt (Some (Vector2.x tickMarkCenter))
             (Vector2.rawX (getPlankSurfaceCenter p))
    then Js.neg tickMarkDistanceFromCenter
    else tickMarkDistanceFromCenter in
  isTickMarkOccupied_loop p tickMarkDistanceFromCenter
    (seq 0 (Js.rounds (Js.to_number (Js.mkArray (massesOnSurface p) ∅)))).

(** ** Reachable worlds

    The worlds a program can bring about: it constructs a plank (at a
    location for which [maxTiltAngle] is a number), calls the methods that
    change it (going on after a call that threw), and, from outside,
    changes the column state, takes or releases the plank, and creates or
    moves masses that are not on the plank. *)
Inductive reachable : World -> Prop :=
| reach_new location pivot columns p heap :
    newPlank location pivot columns = Some p ->
    reachable (mkWorld p heap)
| reach_step w dt :
    reachable w -> reachable (exec (step dt) w)
| reach_addMassToSurface w mass :
    reachable w -> reachable (exec (addMassToSurface mass) w)
| reach_addMassToSurfaceAt w mass d :
    reachable w -> reachable (exec (addMassToSurfaceAt mass d) w)
| reach_removeMassFromSurface w mass :
    reachable w -> reachable (exec (removeMassFromSurface mass) w)
| reach_removeAllMasses w :
    reachable w -> reachable (exec removeAllMasses w)
| reach_forceToLevelAndStill w :
    reachable w -> reachable (exec forceToLevelAndStill w)
| reach_forceToMaxAndStill w :
    reachable w -> reachable (exec forceToMaxAndStill w)
| reach_forceAngle w angle :
    reachable w -> reachable (exec (forceAngle angle) w)
| reach_updatePlank w :
    reachable w -> reachable (exec updatePlank w)
| reach_updateMassPositions w :
    reachable w -> reachable (exec updateMassPositions w)
| reach_updateNetTorque w :
    reachable w -> reachable (exec (assign updateNetTorque) w)
| reach_columnState w columns :
    reachable w -> reachable (exec (assign (set_columnState columns)) w)
| reach_userControlled w controlled :
    reachable w -> reachable (exec (assign (set_userControlled controlled)) w)
| reach_mass w mass record :
    reachable w -> mass ∉ massesOnSurface (plank w) ->
    reachable (mkWorld (plank w) (<[mass := record]> (masses w))).

(** The worlds after each of a sequence of [step] calls. *)
Fixpoint stepTrace (dts : list Q) (w : World) : list World :=
  match dts with
  | [] => []
  | dt :: rest => exec (step dt) w :: stepTrace rest (exec (step dt) w)
  end.

End Methods.

(** ** The stack of bricks (common/model/masses/BrickStack.js)

    The constructor draws one rectangle per brick into a shape and hands
    the shape and the mass of the stack to its superclass.  The shape is
    the sequence of the drawing calls made on it; [numBricks] is a count. *)

Module BrickStack.

Definition BRICK_WIDTH : Q := 0.2.
Definition BRICK_HEIGHT : Q := BRICK_WIDTH / 3.
Definition BRICK_MASS : Q := 5.

Inductive PathCommand : Type :=
| MoveTo (x y : Q)
| LineTo (x y : Q)
| Close.

(** The body of the loop, lines 36-42, for one origin. *)
Definition brick (brickOrigin : Vector2.t) : list PathCommand :=
  [ MoveTo (Vector2.x brickOrigin) (Vector2.y brickOrigin);
    LineTo (Vector2.x brickOrigin + BRICK_WIDTH / 2) (Vector2.y brickOrigin);
    LineTo (Vector2.x brickOrigin + BRICK_WIDTH / 2)
           (Vector2.y brickOrigin + BRICK_HEIGHT);
    LineTo (Vector2.x brickOrigin - BRICK_WIDTH / 2)
           (Vector2.y brickOrigin + BRICK_HEIGHT);
    LineTo (Vector2.x brickOrigin - BRICK_WIDTH / 2) (Vector2.y brickOrigin);
    LineTo (Vector2.x brickOrigin) (Vector2.y brickOrigin);
    Close ].

(** The loop of lines 35-45, for the rounds that are left. *)
Fixpoint bricks (rounds : nat) (brickOrigin : Vector2.t) : list PathCommand :=
  match rounds with
  | O => []
  | S rest =>
      brick brickOrigin
      ++ bricks rest (Vector2.mk (Vector2.x brickOrigin)
                                 (Vector2.y brickOrigin + BRICK_HEIGHT))
  end.

(** The shape and the mass value handed to [ShapeMass], line 48. *)
Definition brickStackShape (numBricks : nat) : list PathCommand :=
  bricks numBricks (Vector2.mk 0 0).
Definition massValue (numBricks : nat) : Q :=
  inject_Z (Z.of_nat numBricks) * BRICK_MASS.

(** The points a shape is drawn through. *)
Definition points (commands : list PathCommand) : list Vector2.t :=
  flat_map (fun c => match c with
                     | MoveTo x y | LineTo x y => [Vector2.mk x y]
                     | Close => []
                     end) commands.

End BrickStack.

(** ** The consistency the data model asks of the three collections

    Every mass on the surface has a distance record and exactly one force
    vector, and the force vectors are those of the masses on the surface.
    A distance record of a mass is an element of [massDistancePairs] with
    that mass, which is what the lookups of lines 222 and 254 go by. *)
Definition distanceRecorded (p : Plank) (mass : MassId) : Prop :=
  exists entry, entry ∈ Js.elems (massDistancePairs p) /\ pairMass entry = mass.

Definition vectorsOf (p : Plank) (mass : MassId) : list MassForceVector :=
  filter (fun vector => fvMass vector = mass) (forceVectors p).

Definition consistent (p : Plank) : Prop :=
  (forall mass, mass ∈ massesOnSurface p ->
     distanceRecorded p mass /\ length (vectorsOf p mass) = 1%nat)
  /\ length (forceVectors p) = length (massesOnSurface p)
  /\ map fvMass (forceVectors p) ≡ₚ massesOnSurface p.

(** A plank without anything on it. *)
Definition unloaded (p : Plank) : Prop :=
  massesOnSurface p = [] /\ forceVectors p = []
  /\ massDistancePairs p = Js.empty_array.

(** The parts of a plank that are set by the constructor. *)
Definition fixedParts (p : Plank)
  : Vector2.t * Vector2.t * Q * Shape :=
  (bottomCenterLocation p, pivotPoint p, maxTiltAngle p, unrotatedShape p).

(** The sum of a list of numbers. *)
Definition Qsum (l : list Q) : Q := fold_right Qplus 0 l.

(** A candidate is within reach of a drop at [pt] (line 299). *)
Definition inReach (pt candidate : Vector2.t) : Prop :=
  Qabs (Vector2.x candidate - Vector2.x pt) <= INTER_SNAP_TO_MARKER_DISTANCE.

(** The lists of a plank and the flags set from outside. *)
Definition listsAndFlags (p : Plank)
  : list MassId * list MassForceVector * Js.Array MassDistancePair * string * bool :=
  (massesOnSurface p, forceVectors p, massDistancePairs p, columnState p,
   userControlled p).

(** ** Example worlds *)

(** Two stacks of one brick (5 kg, 0.2 m / 3 high) lying on the ground,
    as the constructor of a mass leaves them. *)
Definition brickAt (x : Q) : Mass.t :=
  Mass.mk (Vector2.raw_of (Vector2.mk x 0)) 0 5 false (0.2 / 3) false 0.
Definition twoBricks : gmap MassId Mass.t :=
  <[1%nat := brickAt (-0.5)]> (<[2%nat := brickAt 0.5]> ∅).

(** A new plank 0.9 m above the ground, its pivot at its bottom center and
    no support columns, beside the two bricks. *)
Definition freshWorld : World :=
  mkWorld (constructed (Vector2.mk 0 0.9) (Vector2.mk 0 0.9) "none"
             (asin (Geometry := level_geometry) (0.9 / (PLANK_LENGTH / 2))))
          twoBricks.

(** The world lines 155-175 leave when they run for brick 1 at 0.5 m to the
    left and then for brick 2 at 0.5 m to the right of the center. *)
Definition loadedWorld : World :=
  exec (attach (G := level_geometry) 2%nat (Vector2.mk 0.5 0.95))
       (exec (attach (G := level_geometry) 1%nat (Vector2.mk (-0.5) 0.95)) freshWorld).

(** The same for brick 1 alone. *)
Definition oneBrickWorld : World :=
  exec (attach (G := level_geometry) 1%nat (Vector2.mk (-0.5) 0.95)) freshWorld.

(** The new plank after a call of [addMassToSurface], a call of
    [addMassToSurfaceAt] and a step of one second. *)
Definition busyWorld : World :=
  exec (step (G := level_geometry) 1)
       (exec (addMassToSurfaceAt (G := level_geometry) 1%nat 3)
             (exec (addMassToSurface (G := level_geometry) 1%nat) freshWorld)).

(** The new plank after a step of one second, with two support columns
    then put under it. *)
Definition proppedWorld : World :=
  exec (assign (set_columnState "double"))
       (exec (step (G := level_geometry) 1) freshWorld).

(** The propped plank after [forceToLevelAndStill]. *)
Definition leveledWorld : World :=
  exec (forceToLevelAndStill (G := level_geometry)) proppedWorld.

(** The new plank forced to its largest tilt. *)
Definition tiltedWorld : World :=
  exec (forceToMaxAndStill (G := level_geometry)) freshWorld.

(** The new plank forced to the angle 1, beyond its limit. *)
Definition forcedWorld : World :=
  exec (forceAngle (G := level_geometry) 1) freshWorld.

(** The forced plank taken in hand by the user. *)
Definition heldWorld : World :=
  exec (assign (set_userControlled true)) forcedWorld.

(** A new plank 0.9 m below the ground level, beside the two bricks. *)
Definition sunkWorld : World :=
  mkWorld (constructed (Vector2.mk 0 (-0.9)) (Vector2.mk 0 (-0.9)) "none"
             (asin (Geometry := level_geometry) (-0.9 / (PLANK_LENGTH / 2))))
          twoBricks.

(** Three locations of a level plank around the place of brick 1. *)
Definition locationsAroundBrick : list (option Vector2.t) :=
  [Some (Vector2.mk (-0.75) 0.95); Some (Vector2.mk (-0.5) 0.95);
   Some (Vector2.mk (-0.25) 0.95)].

(** ** Invariants of methods *)

(** [c] keeps [I]: from a world with [I], the world [c] leaves has [I],
    however [c] ends. *)
Definition keeps {A} (I : World -> Prop) (c : M A) : Prop :=
  forall w, I w -> I (exec c w).

(** An invariant that speaks of the plank only. *)
Definition onPlankOnly (I : World -> Prop) : Prop :=
  forall p heap heap', I (mkWorld p heap) -> I (mkWorld p heap').

(** [I] survives the assignment [f] to the plank. *)
Definition stable (I : World -> Prop) (f : Plank -> Plank) : Prop :=
  forall w, I w -> I (mkWorld (f (plank w)) (masses w)).

(** The tilt is within the limit, for a limit that is not negative. *)
Definition withinLimit (p : Plank) : Prop :=
  0 <= maxTiltAngle p -> Qabs (tiltAngle p) <= maxTiltAngle p.

(** ** Properties *)

Section Facts.
Context {G : Geometry}.

(** *** Running a method *)

Lemma bind_normal {A B} (c : M A) (k : A -> M B) w a w' :
  c w = (Normal a, w') -> bind c k w = k a w'.
Proof. intros H. unfold bind. now rewrite H. Qed.

Lemma bind_throw {A B} (c : M A) (k : A -> M B) w e w' :
  c w = (Throw e, w') -> bind c k w = (Throw e, w').
Proof. intros H. unfold bind. now rewrite H. Qed.

Lemma keeps_ret {A} I (a : A) : keeps I (ret a).
Proof. intros w H. exact H. Qed.

Lemma keeps_throw {A} I e : keeps I (@throw A e).
Proof. intros w H. exact H. Qed.

Lemma keeps_get {A} I (f : Plank -> A) : keeps I (get f).
Proof. intros w H. exact H. Qed.

Lemma keeps_lift {A} I (f : Plank -> Completion A) : keeps I (lift f).
Proof. intros w H. exact H. Qed.

Lemma keeps_get_mass {A} I m (f : Mass.t -> A) : keeps I (get_mass m f).
Proof. intros w H. exact H. Qed.

Lemma keeps_assert I b : keeps I (assert b).
Proof. intros w H. unfold assert. now destruct b. Qed.

Lemma keeps_member_of_this I this name : keeps I (member_of_this this name).
Proof. intros w H. now destruct this. Qed.

Lemma keeps_bind {A B} I (c : M A) (k : A -> M B) :
  keeps I c -> (forall a, keeps I (k a)) -> keeps I (bind c k).
Proof.
  intros Hc Hk w H. specialize (Hc w H). unfold exec, bind in *.
  destruct (c w) as [[a | e] w']; simpl in *.
  - now apply Hk.
  - exact Hc.
Qed.

Lemma keeps_assign I (f : Plank -> Plank) :
  (forall w, I w -> I (mkWorld (f (plank w)) (masses w))) -> keeps I (assign f).
Proof. intros Hf w H. now apply Hf. Qed.

Lemma keeps_assign_mass I m (f : Mass.t -> Mass.t) :
  onPlankOnly I -> keeps I (assign_mass m f).
Proof.
  intros HI [p heap] H. unfold exec, assign_mass. simpl. now apply (HI p heap).
Qed.

Lemma keeps_forEach {A S} I (l : list A) (callback : Receiver -> A -> S -> M S) :
  (forall this a s, keeps I (callback this a s)) ->
  forall s, keeps I (forEach l callback s).
Proof.
  intros Hcb. induction l as [| a l IH]; intros s; simpl.
  - apply keeps_ret.
  - apply keeps_bind; [apply Hcb | intros s'; apply IH].
Qed.

Lemma keeps_for_indices {S} I (indices : list nat) (body : nat -> S -> M S) :
  (forall i s, keeps I (body i s)) ->
  forall s, keeps I (for_indices indices body s).
Proof.
  intros Hb. induction indices as [| i rest IH]; intros s; simpl.
  - apply keeps_ret.
  - apply keeps_bind; [apply Hb | intros s'; apply IH].
Qed.

Ltac keeps_step :=
  first
    [ apply keeps_ret | apply keeps_throw | apply keeps_get | apply keeps_lift
    | apply keeps_get_mass | apply keeps_assert | apply keeps_member_of_this
    | apply keeps_bind; [| intros ?]
    | apply keeps_forEach; intros ? ? ?
    | apply keeps_for_indices; intros ? ?
    | match goal with
      | |- keeps _ (if ?b then _ else _) => destruct b
      | |- keeps _ (match ?x with _ => _ end) => destruct x
      end ].

(** *** Comparisons *)

Lemma ltb_true a b : Js.ltb a b = true <-> a < b.
Proof.
  unfold Js.ltb. rewrite negb_true_iff, <- not_true_iff_false, Qle_bool_iff.
  split; [apply Qnot_le_lt | apply Qlt_not_le].
Qed.

Lemma ltb_false a b : Js.ltb a b = false <-> b <= a.
Proof. unfold Js.ltb. now rewrite negb_false_iff, Qle_bool_iff. Qed.

Lemma gtb_true a b : Js.gtb a b = true <-> b < a.
Proof. apply ltb_true. Qed.

Lemma gtb_false a b : Js.gtb a b = false <-> a <= b.
Proof. apply ltb_false. Qed.

Lemma leb_true a b : Js.leb a b = true <-> a <= b.
Proof. apply Qle_bool_iff. Qed.

(** *** The angle after [step] *)

Ltac split_ifs :=
  repeat match goal with
         | |- context [if ?c then _ else _] => destruct c
         end.

Lemma updateNetTorque_frame p :
  let p' := updateNetTorque p in
  tiltAngle p' = tiltAngle p /\ maxTiltAngle p' = maxTiltAngle p
  /\ angularVelocity p' = angularVelocity p
  /\ massesOnSurface p' = massesOnSurface p /\ forceVectors p' = forceVectors p
  /\ massDistancePairs p' = massDistancePairs p.
Proof. unfold updateNetTorque. simpl. split_ifs; simpl; auto 10. Qed.

Lemma advance_frame dt p :
  let p' := advance dt p in
  maxTiltAngle p' = maxTiltAngle p
  /\ massesOnSurface p' = massesOnSurface p /\ forceVectors p' = forceVectors p
  /\ massDistancePairs p' = massDistancePairs p.
Proof.
  destruct (updateNetTorque_frame p) as (_ & Hm & _ & H1 & H2 & H3).
  unfold advance. simpl. auto.
Qed.

Lemma limit_frame p :
  let p' := limit p in
  maxTiltAngle p' = maxTiltAngle p
  /\ massesOnSurface p' = massesOnSurface p /\ forceVectors p' = forceVectors p
  /\ massDistancePairs p' = massDistancePairs p.
Proof. unfold limit. split_ifs; simpl; auto. Qed.

Lemma limit_withinLimit p : withinLimit (limit p).
Proof.
  unfold withinLimit, limit.
  destruct (Js.gtb (Qabs (tiltAngle p)) (maxTiltAngle p)) eqn:Hover.
  - cbn [tiltAngle maxTiltAngle set_tiltAngle set_angularVelocity].
    intros Hmax. rewrite Qabs_Qmult, (Qabs_pos _ Hmax).
    destruct (Js.ltb (tiltAngle p) 0).
    + change (Qabs (-1)) with 1. lra.
    + change (Qabs 1) with 1. lra.
  - apply gtb_false in Hover.
    destruct (Js.ltb (Qabs (tiltAngle p)) 0.0001);
      cbn [tiltAngle maxTiltAngle set_tiltAngle]; intros Hmax.
    + exact Hmax.
    + exact Hover.
Qed.

(** What lines 126-130 do when the angle is over the limit. *)
Lemma limit_over p :
  maxTiltAngle p < Qabs (tiltAngle p) ->
  (tiltAngle p < 0 -> tiltAngle (limit p) == - maxTiltAngle p)
  /\ (0 <= tiltAngle p -> tiltAngle (limit p) == maxTiltAngle p)
  /\ angularVelocity (limit p) = 0.
Proof.
  intros Hover. apply gtb_true in Hover. unfold limit. rewrite Hover.
  cbn [tiltAngle angularVelocity maxTiltAngle set_tiltAngle set_angularVelocity].
  destruct (Js.ltb (tiltAngle p) 0) eqn:Hneg.
  - apply ltb_true in Hneg. repeat split; intros; lra.
  - apply ltb_false in Hneg. repeat split; intros; lra.
Qed.

(** *** Attaching never gets past the snap locations *)

Lemma getSnapToLocations_throws w :
  getSnapToLocations w
  = (Throw (TypeError "snapToLocations.add is not a function"), w).
Proof. reflexivity. Qed.

Lemma getOpenMassDroppedLocation_throws pt w :
  getOpenMassDroppedLocation pt w
  = (Throw (TypeError "snapToLocations.add is not a function"), w).
Proof.
  unfold getOpenMassDroppedLocation.
  exact (bind_throw _ _ _ _ _ (getSnapToLocations_throws w)).
Qed.

Lemma addMassToSurface_throws mass w :
  addMassToSurface mass w
  = (Throw (TypeError "snapToLocations.add is not a function"), w).
Proof.
  unfold addMassToSurface.
  rewrite (bind_normal _ _ w (Mass.position (mass_of w mass)) w) by reflexivity.
  exact (bind_throw _ _ _ _ _ (getOpenMassDroppedLocation_throws _ w)).
Qed.

Lemma keeps_addMassToSurface I mass : keeps I (addMassToSurface mass).
Proof. intros w H. unfold exec. now rewrite addMassToSurface_throws. Qed.

Lemma keeps_addMassToSurfaceAt I mass d :
  onPlankOnly I -> keeps I (addMassToSurfaceAt mass d).
Proof.
  intros HI. unfold addMassToSurfaceAt.
  repeat first [apply keeps_addMassToSurface | apply keeps_assign_mass; [exact HI] | keeps_step].
Qed.

Lemma keeps_removeAllMasses I : keeps I removeAllMasses.
Proof. unfold removeAllMasses. repeat keeps_step. Qed.

Lemma keeps_updateMassPositions I :
  onPlankOnly I -> keeps I updateMassPositions.
Proof.
  intros HI. unfold updateMassPositions.
  repeat first [apply keeps_assign_mass; [exact HI] | keeps_step].
Qed.

Lemma keeps_updatePlank I :
  (forall s, stable I (set_shape s)) ->
  (forall b, stable I (set_bottomCenterPoint b)) ->
  keeps I updatePlank.
Proof.
  intros Hs Hb. unfold updatePlank.
  repeat first [apply keeps_assign; first [apply Hs | apply Hb] | keeps_step].
Qed.

Lemma keeps_step_method I dt :
  onPlankOnly I ->
  (forall s, stable I (set_shape s)) ->
  (forall b, stable I (set_bottomCenterPoint b)) ->
  stable I (fun p => limit (advance dt p)) ->
  keeps I (step dt).
Proof.
  intros HI Hs Hb Hl. unfold step.
  repeat first
    [ apply keeps_updatePlank; [exact Hs | exact Hb]
    | apply keeps_updateMassPositions; exact HI
    | apply keeps_assign; exact Hl
    | keeps_step ].
Qed.

Lemma keeps_forceAngle I angle :
  onPlankOnly I ->
  (forall s, stable I (set_shape s)) ->
  (forall b, stable I (set_bottomCenterPoint b)) ->
  stable I (set_angularVelocity 0) ->
  stable I (set_tiltAngle angle) ->
  keeps I (forceAngle angle).
Proof.
  intros HI Hs Hb Hv Ht. unfold forceAngle.
  repeat first
    [ apply keeps_updatePlank; [exact Hs | exact Hb]
    | apply keeps_updateMassPositions; exact HI
    | apply keeps_assign; first [exact Hv | exact Ht]
    | keeps_step ].
Qed.

Lemma keeps_removeMassFromSurface I mass :
  onPlankOnly I ->
  (forall l, stable I (set_massesOnSurface l)) ->
  (forall a, stable I (set_massDistancePairs a)) ->
  (forall v, stable I (set_forceVectors v)) ->
  stable I updateNetTorque ->
  keeps I (removeMassFromSurface mass).
Proof.
  intros HI Hm Hd Hv Hu. unfold removeMassFromSurface.
  repeat first
    [ apply keeps_assign_mass; [exact HI]
    | apply keeps_assign; first [exact Hu | apply Hv | intros w Hw; apply Hm, Hw
                                | intros w Hw;
                                  destruct (pairIndex _ _ _);
                                  [apply Hd, Hw | destruct w; exact Hw] ]
    | keeps_step ].
Qed.

(** *** The tilt stays within the limit *)

Ltac untouched :=
  try first [ intros ? ? Hw; exact Hw | intros ? Hw; exact Hw
            | intros ? ? ? Hw; exact Hw ].

(** [step] on a plank that is not user controlled: the plank is first
    advanced and limited; what follows touches the shape and the masses. *)
Lemma step_after I dt w :
  onPlankOnly I ->
  (forall s, stable I (set_shape s)) ->
  (forall b, stable I (set_bottomCenterPoint b)) ->
  userControlled (plank w) = false ->
  I (mkWorld (limit (advance dt (plank w))) (masses w)) ->
  I (exec (step dt) w).
Proof.
  intros HI Hs Hb Huc Hw. unfold exec, step.
  erewrite bind_normal by (unfold get; rewrite Huc; reflexivity). cbn [negb].
  do 3 (erewrite bind_normal by reflexivity).
  match goal with |- context [if ?c then _ else _] => destruct c end.
  - revert Hw. apply (keeps_bind I).
    + now apply keeps_updatePlank.
    + intros _. now apply keeps_updateMassPositions.
  - exact Hw.
Qed.

Lemma step_userControlled dt w :
  userControlled (plank w) = true -> exec (step dt) w = w.
Proof.
  intros Huc. unfold exec, step.
  erewrite bind_normal by (unfold get; rewrite Huc; reflexivity). reflexivity.
Qed.

Lemma step_maxTiltAngle dt w :
  maxTiltAngle (plank (exec (step dt) w)) = maxTiltAngle (plank w).
Proof.
  assert (Hk : keeps (fun w' => maxTiltAngle (plank w') = maxTiltAngle (plank w))
                     (step dt)).
  { apply keeps_step_method; untouched.
    intros w' Hw. cbn [plank].
    destruct (limit_frame (advance dt (plank w'))) as (-> & _).
    destruct (advance_frame dt (plank w')) as (-> & _). exact Hw. }
  now apply Hk.
Qed.

Lemma limit_advance_userControlled dt p :
  userControlled (limit (advance dt p)) = userControlled p.
Proof.
  transitivity (userControlled (advance dt p)).
  - unfold limit. split_ifs; reflexivity.
  - unfold advance, updateNetTorque. simpl. split_ifs; reflexivity.
Qed.

Lemma step_keeps_userControlled dt w :
  userControlled (plank (exec (step dt) w)) = userControlled (plank w).
Proof.
  assert (Hk : keeps (fun w' => userControlled (plank w') = userControlled (plank w))
                     (step dt)).
  { apply keeps_step_method; untouched.
    intros w' Hw. cbn [plank]. now rewrite limit_advance_userControlled. }
  now apply Hk.
Qed.

(** A step of a plank that is not user controlled ends within the limit,
    wherever it started. *)
Lemma step_withinLimit dt w :
  userControlled (plank w) = false -> withinLimit (plank (exec (step dt) w)).
Proof.
  intros Huc.
  apply (step_after (fun w' => withinLimit (plank w'))); untouched;
    [exact Huc |].
  apply limit_withinLimit.
Qed.

Lemma stepTrace_withinLimit dts : forall w,
  userControlled (plank w) = false -> 0 <= maxTiltAngle (plank w) ->
  Forall (fun w' => Qabs (tiltAngle (plank w')) <= maxTiltAngle (plank w'))
         (stepTrace dts w).
Proof.
  induction dts as [| dt rest IH]; intros w Huc Hmax; simpl.
  - constructor.
  - assert (Hmax' : 0 <= maxTiltAngle (plank (exec (step dt) w)))
      by now rewrite step_maxTiltAngle.
    constructor.
    + now apply step_withinLimit.
    + apply IH; [| exact Hmax']. now rewrite step_keeps_userControlled.
Qed.

Lemma stepTrace_userControlled dts w :
  userControlled (plank w) = true -> Forall (fun w' => w' = w) (stepTrace dts w).
Proof.
  intros Huc. induction dts as [| dt rest IH]; simpl; [constructor |].
  rewrite step_userControlled by exact Huc. now constructor.
Qed.

(** With a support column, a plank that is still stays where it is. *)
Lemma advance_propped_still dt p :
  String.eqb (columnState p) "none" = false ->
  angularVelocity p == 0 ->
  tiltAngle (advance dt p) == tiltAngle p
  /\ angularVelocity (advance dt p) = 0
  /\ maxTiltAngle (advance dt p) = maxTiltAngle p.
Proof.
  intros Hc Hv. unfold advance, updateNetTorque.
  cbn [columnState set_currentNetTorque]. rewrite Hc.
  cbn [currentNetTorque angularVelocity tiltAngle maxTiltAngle set_tiltAngle
       set_angularVelocity set_currentNetTorque].
  change (Js.gtb (Qabs (0 / MOMENT_OF_INERTIA)) 0.00001) with false. cbn iota.
  assert (Hle : Js.gtb (Qabs (angularVelocity p + 0)) 0.00001 = false).
  { apply gtb_false. rewrite Hv. apply Qle_bool_iff. reflexivity. }
  rewrite Hle. repeat split. lra.
Qed.

Lemma step_propped_still dt w :
  String.eqb (columnState (plank w)) "none" = false ->
  angularVelocity (plank w) == 0 ->
  Qabs (tiltAngle (plank w)) <= maxTiltAngle (plank w) ->
  tiltAngle (plank w) == 0 \/ 0.0001 <= Qabs (tiltAngle (plank w)) ->
  tiltAngle (plank (exec (step dt) w)) == tiltAngle (plank w).
Proof.
  intros Hc Hv Hmax Hband.
  destruct (userControlled (plank w)) eqn:Huc.
  - rewrite step_userControlled by exact Huc. reflexivity.
  - apply (step_after (fun w' => tiltAngle (plank w') == tiltAngle (plank w)));
      untouched; [exact Huc |].
    cbn [plank].
    destruct (advance_propped_still dt (plank w) Hc Hv) as (Ht & _ & Hm).
    unfold limit. rewrite Hm.
    destruct (Js.gtb _ _) eqn:Hover.
    + apply gtb_true in Hover. rewrite Ht in Hover. lra.
    + destruct (Js.ltb _ _) eqn:Hlow; cbn [tiltAngle set_tiltAngle].
      * apply ltb_true in Hlow. rewrite Ht in Hlow.
        destruct Hband as [H0 | Hfar]; [now rewrite H0 | lra].
      * exact Ht.
Qed.

(** *** Nothing is ever on the plank *)

Lemma removeMassFromSurface_unloaded mass w :
  unloaded (plank w) ->
  outcome (removeMassFromSurface mass) w = Normal tt
  /\ plank (exec (removeMassFromSurface mass) w) = updateNetTorque (plank w).
Proof.
  destruct w as [p heap]. destruct p. unfold unloaded. simpl.
  intros (-> & -> & ->). split; reflexivity.
Qed.

Lemma unloaded_updateNetTorque p : unloaded p -> unloaded (updateNetTorque p).
Proof.
  unfold unloaded.
  destruct (updateNetTorque_frame p) as (_ & _ & _ & -> & -> & ->). auto.
Qed.

Lemma newPlank_constructed location pivot columns p :
  newPlank location pivot columns = Some p ->
  exists limit, p = constructed location pivot columns limit.
Proof.
  unfold newPlank. destruct (Math_asin _) as [limit |]; [| discriminate].
  intros H. inversion H. now exists limit.
Qed.

Lemma reachable_unloaded w : reachable w -> unloaded (plank w).
Proof.
  induction 1 as [ location pivot columns p heap Hnew | w dt _ IH | w mass _ IH
                 | w mass d _ IH | w mass _ IH | w _ IH | w _ IH | w _ IH
                 | w angle _ IH | w _ IH | w _ IH | w _ IH
                 | w columns _ IH | w controlled _ IH | w mass record _ IH _ ].
  - apply newPlank_constructed in Hnew as [limit ->]. repeat split.
  - revert IH. apply (keeps_step_method (fun w => unloaded (plank w)));
      untouched.
    intros w' Hw. unfold unloaded in *. cbn [plank].
    destruct (limit_frame (advance dt (plank w'))) as (_ & -> & -> & ->).
    destruct (advance_frame dt (plank w')) as (_ & -> & -> & ->). exact Hw.
  - revert IH. apply (keeps_addMassToSurface (fun w => unloaded (plank w))).
  - revert IH. apply (keeps_addMassToSurfaceAt (fun w => unloaded (plank w))).
    untouched.
  - destruct (removeMassFromSurface_unloaded mass w IH) as [_ ->].
    now apply unloaded_updateNetTorque.
  - revert IH. apply (keeps_removeAllMasses (fun w => unloaded (plank w))).
  - revert IH. apply (keeps_forceAngle (fun w => unloaded (plank w)));
      untouched.
  - revert IH.
    apply (keeps_forceAngle (fun w => unloaded (plank w)) (maxTiltAngle (plank w)));
      untouched.
  - revert IH. apply (keeps_forceAngle (fun w => unloaded (plank w)));
      untouched.
  - revert IH. apply (keeps_updatePlank (fun w => unloaded (plank w)));
      untouched.
  - revert IH. apply (keeps_updateMassPositions (fun w => unloaded (plank w))).
    untouched.
  - now apply unloaded_updateNetTorque.
  - exact IH.
  - exact IH.
  - exact IH.
Qed.

Lemma unloaded_consistent p : unloaded p -> consistent p.
Proof.
  intros (Hm & Hv & _). unfold consistent, vectorsOf. rewrite Hm, Hv.
  split; [| split; reflexivity].
  intros m Hin. inversion Hin.
Qed.

Lemma no_pairs_not_recorded p mass :
  Js.elems (massDistancePairs p) = [] -> ~ distanceRecorded p mass.
Proof. intros Hd (entry & Hin & _). rewrite Hd in Hin. inversion Hin. Qed.

(** The collections of a reachable world are consistent, there being
    nothing in them. *)
Lemma reachable_consistent w : reachable w -> consistent (plank w).
Proof. intros Hr. now apply unloaded_consistent, reachable_unloaded. Qed.

(** *** The distance of a mass from the center *)

Lemma getMassDistanceFromCenter_zero p mass :
  getMassDistanceFromCenter p mass = Normal 0.
Proof.
  unfold getMassDistanceFromCenter, Js.to_number.
  destruct (Js.elems (massDistancePairs p)); reflexivity.
Qed.

Lemma attach_elems mass location w :
  Js.elems (massDistancePairs (plank (exec (attach mass location) w)))
  = Js.elems (massDistancePairs (plank w)).
Proof.
  assert (Hk : keeps (fun w' => Js.elems (massDistancePairs (plank w'))
                                = Js.elems (massDistancePairs (plank w)))
                     (attach mass location)).
  { unfold attach.
    repeat first
      [ apply keeps_updateMassPositions; untouched
      | apply keeps_assign_mass; untouched
      | apply keeps_assign; untouched
      | keeps_step ].
    intros w' Hw. cbn [plank].
    destruct (updateNetTorque_frame (plank w')) as (_ & _ & _ & _ & _ & ->).
    exact Hw. }
  now apply Hk.
Qed.

(** The property line 157 writes is not a number: the distance is taken
    from the surface center, whose fields are not numbers. *)
Lemma attach_property mass location w :
  Js.props (massDistancePairs (plank (exec (attach mass location) w)))
    !! Js.object_key
  = Some None.
Proof.
  unfold exec, attach.
  do 5 (erewrite bind_normal by reflexivity).
  match goal with
  | |- Js.props (massDistancePairs (plank (snd (?c ?w5)))) !! _ = _ =>
      assert (Hk : keeps (fun w' => massDistancePairs (plank w')
                                    = massDistancePairs (plank w5)) c)
  end.
  { repeat first
      [ apply keeps_updateMassPositions; untouched
      | apply keeps_assign_mass; untouched
      | apply keeps_assign; untouched
      | keeps_step ].
    intros w' Hw. cbn [plank].
    destruct (updateNetTorque_frame (plank w')) as (_ & _ & _ & _ & _ & ->).
    exact Hw. }
  etransitivity;
    [exact (f_equal (fun a => Js.props a !! Js.object_key) (Hk _ eq_refl)) |].
  cbn [plank massDistancePairs set_massDistancePairs].
  unfold Js.set_prop. cbn [Js.props]. rewrite lookup_insert_eq.
  reflexivity.
Qed.

(** *** Placing a mass at a distance *)

Lemma addMassToSurfaceAt_in_range mass d w :
  d <= PLANK_LENGTH / 2 ->
  addMassToSurfaceAt mass d w
  = (Throw (Error "Warning: Attempt to add mass at invalid distance from center"), w).
Proof.
  intros Hd. apply leb_true in Hd. unfold addMassToSurfaceAt. now rewrite Hd.
Qed.

Lemma addMassToSurfaceAt_fails mass d w :
  (exists e, outcome (addMassToSurfaceAt mass d) w = Throw e)
  /\ plank (exec (addMassToSurfaceAt mass d) w) = plank w.
Proof.
  split.
  - unfold outcome, addMassToSurfaceAt.
    destruct (Js.leb d (PLANK_LENGTH / 2)); [now eexists |].
    do 5 (erewrite bind_normal by reflexivity).
    match goal with |- context [assert ?b] => destruct b end.
    + erewrite bind_normal by reflexivity.
      erewrite bind_throw by apply addMassToSurface_throws. now eexists.
    + erewrite bind_throw by reflexivity. now eexists.
  - assert (Hk : keeps (fun w' => plank w' = plank w) (addMassToSurfaceAt mass d))
      by (apply keeps_addMassToSurfaceAt; untouched).
    now apply Hk.
Qed.

(** *** The branch that attaches *)

Lemma attach_throws mass location w :
  outcome (attach mass location) w
  = Throw (TypeError "Cannot read property 'getMassDistanceFromCenter' of undefined")
  /\ massesOnSurface (plank (exec (attach mass location) w))
     = massesOnSurface (plank w) ++ [mass]
  /\ forceVectors (plank (exec (attach mass location) w))
     = forceVectors (plank w) ++ [mkMassForceVector mass].
Proof.
  destruct w as [p heap]. destruct p as [? ? ? ? onSurface ? ? ? ? ? ? ? ? ? ?].
  destruct onSurface; repeat split; reflexivity.
Qed.

(** *** Choosing among given locations *)

Lemma without_location_is_mass l mass : without location_is_mass l mass = l.
Proof.
  unfold without. induction l as [| a l IH]; [reflexivity |].
  rewrite filter_cons_True by reflexivity. now rewrite IH.
Qed.

Lemma for_indices_unchanged {S} (indices : list nat) (body : nat -> S -> M S) s w :
  (forall i, i ∈ indices -> body i s w = (Normal s, w)) ->
  for_indices indices body s w = (Normal s, w).
Proof.
  induction indices as [| i rest IH]; intros Hb; simpl; [reflexivity |].
  erewrite bind_normal by (apply Hb; left).
  apply IH. intros j Hj. apply Hb. now right.
Qed.

Lemma splice_rest_elem {A} (l : list A) start count a :
  a ∈ snd (Js.splice l start count) -> a ∈ l.
Proof.
  unfold Js.splice. cbn [snd]. rewrite elem_of_app.
  intros [H | H].
  - eapply subseteq_take, H.
  - eapply subseteq_drop, H.
Qed.

(** Lines 286-293 leave the candidates as they are, whatever is on the
    plank, when the array has no empty slot. *)
Lemma chooseOpenLocation_ignores_masses pt (locations : list Vector2.t) w :
  chooseOpenLocation pt (Some <$> locations) w
  = (Normal (fold_left (closer pt)
               (snd (Js.splice (Some <$> locations) 8 1)) None), w).
Proof.
  unfold chooseOpenLocation.
  change (Z.rem NUM_SNAP_TO_LOCATIONS 2 =? 1)%Z with true. cbn iota.
  change (Js.to_integer (inject_Z NUM_SNAP_TO_LOCATIONS / 2)) with 8%Z.
  set (candidates := snd (Js.splice (Some <$> locations) 8 1)).
  assert (Hsome : forall i c, candidates !! i = Some c -> exists l, c = Some l).
  { intros i c Hc. apply list_elem_of_lookup_2, splice_rest_elem in Hc.
    apply list_elem_of_fmap in Hc as (l & -> & _). now exists l. }
  erewrite bind_normal by reflexivity.
  erewrite bind_normal; [reflexivity |].
  unfold for_range. apply for_indices_unchanged. intros i Hi.
  apply for_indices_unchanged. intros j Hj.
  apply elem_of_seq in Hi as [_ Hi]. apply elem_of_seq in Hj as [_ Hj].
  destruct (lookup_lt_is_Some_2 candidates i Hi) as [c Hc].
  destruct (lookup_lt_is_Some_2 (massesOnSurface (plank w)) j Hj) as [m Hm].
  destruct (Hsome i c Hc) as [l ->]. rewrite Hc, Hm.
  erewrite bind_normal by reflexivity.
  destruct (Js.lt _ _); [| reflexivity].
  now rewrite without_location_is_mass.
Qed.

(** *** Removing a mass *)

Lemma indexOf_from_found (l : list MassId) v i :
  v ∈ l ->
  exists k, Js.indexOf_from l v i = (i + Z.of_nat k)%Z /\ l !! k = Some v.
Proof.
  revert i. induction l as [| a l IH]; intros i Hin; [inversion Hin |].
  simpl. destruct (decide (a = v)) as [-> | Hne].
  - exists 0%nat. split; [lia | reflexivity].
  - assert (Hl : v ∈ l) by (inversion Hin; subst; [congruence | assumption]).
    destruct (IH (i + 1)%Z Hl) as (k & Hk & Hv).
    exists (S k). split; [lia | exact Hv].
Qed.

Lemma indexOf_from_absent (l : list MassId) v i :
  v ∉ l -> Js.indexOf_from l v i = (-1)%Z.
Proof.
  revert i. induction l as [| a l IH]; intros i Hin; [reflexivity |].
  simpl. destruct (decide (a = v)) as [-> | Hne].
  - exfalso. apply Hin. left.
  - apply IH. intros Hl. apply Hin. now right.
Qed.

Lemma splice_one {A} (l : list A) k v :
  l !! k = Some v -> fst (Js.splice l (Z.of_nat k) 1) = [v].
Proof.
  intros Hk. pose proof (lookup_lt_Some _ _ _ Hk) as Hlt.
  unfold Js.splice. cbn [fst].
  replace (Z.of_nat k <? 0)%Z with false by (symmetry; apply Z.ltb_ge; lia).
  replace (Z.to_nat (Z.min (Z.of_nat k) (Z.of_nat (length l)))) with k by lia.
  replace (Z.to_nat _) with 1%nat by lia.
  assert (Hd : drop k l !! 0%nat = Some v)
    by (rewrite lookup_drop; now replace (k + 0)%nat with k by lia).
  destruct (drop k l); [discriminate Hd |]. simpl in Hd. now inversion Hd.
Qed.

Lemma splice_last {A} (l : list A) :
  fst (Js.splice l (-1) 1) = drop (length l - 1) l.
Proof.
  unfold Js.splice. cbn [fst]. change (-1 <? 0)%Z with true. cbn iota.
  replace (Z.to_nat (Z.max (Z.of_nat (length l) + -1) 0)) with (length l - 1)%nat
    by lia.
  destruct l as [| a l]; [reflexivity |].
  replace (Z.to_nat _) with 1%nat by (cbn [length]; lia).
  cbn [length]. replace (S (length l) - 1)%nat with (length l) by lia.
  apply take_ge. rewrite length_drop. cbn [length]. lia.
Qed.

(** Line 218 alone decides what is on the surface after the call. *)
Lemma removeMassFromSurface_massesOnSurface mass w :
  massesOnSurface (plank (exec (removeMassFromSurface mass) w))
  = fst (Js.splice (massesOnSurface (plank w))
           (Js.indexOf (massesOnSurface (plank w)) mass) 1).
Proof.
  set (left := fst (Js.splice (massesOnSurface (plank w))
                      (Js.indexOf (massesOnSurface (plank w)) mass) 1)).
  unfold exec, removeMassFromSurface.
  erewrite bind_normal by reflexivity.
  match goal with
  | |- massesOnSurface (plank (snd (?c ?w1))) = _ =>
      assert (Hk : keeps (fun w' => massesOnSurface (plank w') = left) c)
  end.
  { repeat first
      [ apply keeps_assign_mass; untouched
      | apply keeps_assign; untouched
      | keeps_step ].
    - intros w' Hw. cbn [plank]. destruct (pairIndex _ _ _); exact Hw.
    - intros w' Hw. cbn [plank].
      destruct (updateNetTorque_frame (plank w')) as (_ & _ & _ & -> & _).
      exact Hw. }
  apply Hk. reflexivity.
Qed.

Lemma removeMassFromSurface_attached mass w :
  mass ∈ massesOnSurface (plank w) ->
  massesOnSurface (plank (exec (removeMassFromSurface mass) w)) = [mass].
Proof.
  intros Hin. rewrite removeMassFromSurface_massesOnSurface.
  destruct (indexOf_from_found _ _ 0%Z Hin) as (k & Hk & Hv).
  unfold Js.indexOf. rewrite Hk. now apply splice_one.
Qed.

Lemma removeMassFromSurface_absent mass w :
  mass ∉ massesOnSurface (plank w) ->
  massesOnSurface (plank (exec (removeMassFromSurface mass) w))
  = drop (length (massesOnSurface (plank w)) - 1) (massesOnSurface (plank w)).
Proof.
  intros Hin. rewrite removeMassFromSurface_massesOnSurface.
  unfold Js.indexOf. rewrite (indexOf_from_absent _ _ _ Hin). apply splice_last.
Qed.

(** With no indexed distance pair both loops of the removal run no round. *)
Lemma removeMassFromSurface_no_pairs mass w :
  Js.elems (massDistancePairs (plank w)) = [] ->
  outcome (removeMassFromSurface mass) w = Normal tt
  /\ forceVectors (plank (exec (removeMassFromSurface mass) w))
     = forceVectors (plank w)
  /\ massDistancePairs (plank (exec (removeMassFromSurface mass) w))
     = massDistancePairs (plank w).
Proof.
  destruct w as [p heap].
  destruct p as [? ? ? ? ? ? ? ? ? ? ? [pairs named] ? ? ?].
  cbn. intros ->.
  unfold outcome, exec, removeMassFromSurface, bind, assign, assign_mass, get.
  cbn.
  destruct (updateNetTorque_frame
              {| bottomCenterLocation := bottomCenterLocation0;
                 tiltAngle := tiltAngle0; shape := shape0;
                 userControlled := userControlled0;
                 massesOnSurface :=
                   (Js.splice massesOnSurface0 (Js.indexOf massesOnSurface0 mass) 1).1;
                 forceVectors := forceVectors0; pivotPoint := pivotPoint0;
                 columnState := columnState0; angularVelocity := angularVelocity0;
                 currentNetTorque := currentNetTorque0;
                 maxTiltAngle := maxTiltAngle0;
                 massDistancePairs := {| Js.elems := []; Js.props := named |};
                 unrotatedShape := unrotatedShape0; turningRight := turningRight0;
                 bottomCenterPoint := bottomCenterPoint0 |})
    as (_ & _ & _ & _ & Hv & Hd).
  repeat match goal with |- _ /\ _ => split end;
    [reflexivity | exact Hv | exact Hd].
Qed.

Lemma forEach_nothing {A} (l : list A) w :
  forEach l (fun _ _ _ => ret tt) tt w = (Normal tt, w).
Proof.
  induction l as [| a l IH]; [reflexivity |].
  cbn [forEach]. erewrite bind_normal by reflexivity. exact IH.
Qed.

(** *** The claims *)

(** C2.  On every plank whose tilt limit is not negative, after each call
    of any sequence of [step( dt )] calls, whatever the values of [dt], the
    absolute value of [tiltAngle] is at most [maxTiltAngle] when the plank
    is not user controlled, wherever the angle was before; on a
    user-controlled plank the calls change nothing.  When the angle
    reached by a step of a plank that is not user controlled is over the
    limit, [tiltAngle] becomes [maxTiltAngle] with the sign of that angle
    and [angularVelocity] becomes 0. *)
Theorem step_keeps_tilt_within_limit (w : World) (dts : list Q) :
  0 <= maxTiltAngle (plank w) ->
  (userControlled (plank w) = false ->
   Forall (fun w' => Qabs (tiltAngle (plank w')) <= maxTiltAngle (plank w'))
          (stepTrace dts w))
  /\ (userControlled (plank w) = true ->
      Forall (fun w' => w' = w) (stepTrace dts w))
  /\ forall dt,
       userControlled (plank w) = false ->
       maxTiltAngle (plank w) < Qabs (tiltAngle (advance dt (plank w))) ->
       let after := plank (exec (step dt) w) in
       (tiltAngle (advance dt (plank w)) < 0 ->
        tiltAngle after == - maxTiltAngle (plank w))
       /\ (0 <= tiltAngle (advance dt (plank w)) ->
           tiltAngle after == maxTiltAngle (plank w))
       /\ angularVelocity after = 0.
Proof.
  intros Hmax.
  split; [intros Huc; now apply stepTrace_withinLimit |].
  split; [apply stepTrace_userControlled |].
  intros dt Huc Hover.
  destruct (advance_frame dt (plank w)) as (Hm & _).
  rewrite <- Hm in Hover |- *.
  destruct (limit_over _ Hover) as (Hneg & Hpos & Hvel).
  apply (step_after
           (fun w' =>
              (tiltAngle (advance dt (plank w)) < 0 ->
               tiltAngle (plank w') == - maxTiltAngle (advance dt (plank w)))
              /\ (0 <= tiltAngle (advance dt (plank w)) ->
                  tiltAngle (plank w') == maxTiltAngle (advance dt (plank w)))
              /\ angularVelocity (plank w') = 0));
    untouched; auto.
Qed.

(** C4.  [addMassToSurfaceAt( mass, d )] throws its error for distances
    within the plank (0.5, -1 and 0 are at most [PLANK_LENGTH / 2]), leaving
    the world as it was; for every [d] the call ends by throwing and the
    plank is unchanged. *)
Theorem addMassToSurfaceAt_rejects_valid_distance (mass : MassId) (w : World) :
  addMassToSurfaceAt mass 0.5 w
  = (Throw (Error "Warning: Attempt to add mass at invalid distance from center"), w)
  /\ addMassToSurfaceAt mass (-1) w
     = (Throw (Error "Warning: Attempt to add mass at invalid distance from center"), w)
  /\ addMassToSurfaceAt mass 0 w
     = (Throw (Error "Warning: Attempt to add mass at invalid distance from center"), w)
  /\ forall d,
       (exists e, outcome (addMassToSurfaceAt mass d) w = Throw e)
       /\ plank (exec (addMassToSurfaceAt mass d) w) = plank w.
Proof.
  repeat split; try reflexivity; apply addMassToSurfaceAt_fails.
Qed.

(** C6.  [getOpenMassDroppedLocation] throws a [TypeError] for every plank
    and every point, so it returns neither a slot nor null; and lines
    276-306, given an array of locations without empty slots, choose among
    them without regard to the masses on the plank. *)
Theorem getOpenMassDroppedLocation_always_throws :
  (forall pt w,
     getOpenMassDroppedLocation pt w
     = (Throw (TypeError "snapToLocations.add is not a function"), w))
  /\ (forall pt locations w,
        chooseOpenLocation pt (Some <$> locations) w
        = (Normal (fold_left (closer pt)
                     (snd (Js.splice (Some <$> locations) 8 1)) None), w)).
Proof.
  split.
  - apply getOpenMassDroppedLocation_throws.
  - apply chooseOpenLocation_ignores_masses.
Qed.

(** C9.  [addMassToSurface( mass )] throws a [TypeError] for every mass and
    every plank, leaving the world as it was: it returns neither true nor
    false.  The branch that attaches, run with a location, throws as well,
    at line 175, once the mass is on the list. *)
Theorem addMassToSurface_always_throws (mass : MassId) (w : World) :
  addMassToSurface mass w
  = (Throw (TypeError "snapToLocations.add is not a function"), w)
  /\ forall location,
       outcome (attach mass location) w
       = Throw (TypeError "Cannot read property 'getMassDistanceFromCenter' of undefined")
       /\ massesOnSurface (plank (exec (attach mass location) w))
          = massesOnSurface (plank w) ++ [mass].
Proof.
  split; [apply addMassToSurface_throws |].
  intros location. destruct (attach_throws mass location w) as (H1 & H2 & _).
  now split.
Qed.

End Facts.

(** *** The example worlds *)

Lemma freshWorld_new :
  newPlank (G := level_geometry) (Vector2.mk 0 0.9) (Vector2.mk 0 0.9) "none"
  = Some (plank freshWorld).
Proof. reflexivity. Qed.

Lemma freshWorld_reachable : reachable (G := level_geometry) freshWorld.
Proof. exact (reach_new _ _ _ _ twoBricks freshWorld_new). Qed.

Lemma busyWorld_reachable : reachable (G := level_geometry) busyWorld.
Proof.
  unfold busyWorld.
  apply reach_step, reach_addMassToSurfaceAt, reach_addMassToSurface.
  exact freshWorld_reachable.
Qed.

Lemma loadedWorld_collections :
  massesOnSurface (plank loadedWorld) = [1%nat; 2%nat]
  /\ forceVectors (plank loadedWorld)
     = [mkMassForceVector 1%nat; mkMassForceVector 2%nat]
  /\ Js.elems (massDistancePairs (plank loadedWorld)) = []
  /\ is_Some (Js.props (massDistancePairs (plank loadedWorld)) !! Js.object_key)
  /\ Mass.position (mass_of loadedWorld 1%nat)
     = Vector2.raw_of (Vector2.mk (-0.5) 0.95)
  /\ Mass.position (mass_of loadedWorld 2%nat)
     = Vector2.raw_of (Vector2.mk 0.5 0.95)
  /\ Mass.mass (mass_of loadedWorld 1%nat) = 5
  /\ Mass.mass (mass_of loadedWorld 2%nat) = 5.
Proof. vm_compute. repeat split; eauto. Qed.


(** *** The claims settled on the example worlds *)

(** C1.  With no support columns [updateNetTorque] sets the net torque to 1
    or to -1, whatever is on the plank: to 1 on the new plank, where the
    masses and the plank's own mass contribute nothing, and to 1 on the
    plank with 5 kg at -0.5 m and 5 kg at +0.5 m; a step of one second then
    takes the new plank away from the angle 0.  With any other column
    state the net torque is 0, and a step leaves the angle of a plank that
    is still where it is. *)
Theorem updateNetTorque_placeholder_torque :
  (forall p,
     currentNetTorque (updateNetTorque (set_columnState "none" p)) = 1
     \/ currentNetTorque (updateNetTorque (set_columnState "none" p)) = -1)
  /\ currentNetTorque (updateNetTorque (plank freshWorld)) = 1
  /\ getTorqueDueToMasses freshWorld = Some 0
  /\ currentNetTorque (updateNetTorque (plank loadedWorld)) = 1
  /\ ~ tiltAngle (plank (exec (step (G := level_geometry) 1) freshWorld)) == 0
  /\ (forall p, String.eqb (columnState p) "none" = false ->
                currentNetTorque (updateNetTorque p) = 0)
  /\ (forall (G : Geometry) w dt,
        String.eqb (columnState (plank w)) "none" = false ->
        angularVelocity (plank w) == 0 ->
        Qabs (tiltAngle (plank w)) <= maxTiltAngle (plank w) ->
        tiltAngle (plank w) == 0 \/ 0.0001 <= Qabs (tiltAngle (plank w)) ->
        tiltAngle (plank (exec (step dt) w)) == tiltAngle (plank w)).
Proof.
  split; [| split; [| split; [| split; [| split; [| split]]]]].
  - intros p. unfold updateNetTorque.
    cbn [columnState set_columnState set_currentNetTorque].
    change (String.eqb "none" "none") with true. cbn iota.
    match goal with
    | |- context [set_currentNetTorque (if Js.truthy (1 * Js.number_of_bool ?b) then _ else _)] =>
        destruct b
    end; [left | right]; reflexivity.
  - reflexivity.
  - reflexivity.
  - reflexivity.
  - vm_compute. discriminate.
  - intros p Hp. unfold updateNetTorque.
    cbn [columnState set_currentNetTorque]. rewrite Hp. reflexivity.
  - intros G w dt. apply step_propped_still.
Qed.

(** A step of a plank on two columns that still has the angular velocity
    of an earlier step changes its angle: [step] has no lock of its own,
    the plank is made still by [forceToLevelAndStill]. *)
Lemma step_moves_propped_plank :
  columnState (plank proppedWorld) = "double"
  /\ ~ angularVelocity (plank proppedWorld) == 0
  /\ ~ tiltAngle (plank (exec (step (G := level_geometry) 1) proppedWorld))
       == tiltAngle (plank proppedWorld)
  /\ tiltAngle (plank (exec (step (G := level_geometry) 1)
                         (exec (forceToLevelAndStill (G := level_geometry)) proppedWorld)))
     == 0.
Proof.
  split; [reflexivity |]. split; [vm_compute; discriminate |].
  split; [vm_compute; discriminate | reflexivity].
Qed.

(** C5.  On the plank with bricks 1 and 2, [removeMassFromSurface] of
    brick 1 leaves the surface list holding brick 1 alone, both force
    vectors and the distance record where they were; of a mass that is not
    attached, it leaves the list holding brick 2 alone.  In general the
    list after the removal of an attached mass holds that mass alone, and
    after the removal of an absent mass its last element alone.  On the new
    plank the call for an absent mass changes the net torque from 0 to 1. *)
Theorem removeMassFromSurface_keeps_wrong_entries :
  massesOnSurface (plank (exec (removeMassFromSurface 1%nat) loadedWorld)) = [1%nat]
  /\ forceVectors (plank (exec (removeMassFromSurface 1%nat) loadedWorld))
     = [mkMassForceVector 1%nat; mkMassForceVector 2%nat]
  /\ massDistancePairs (plank (exec (removeMassFromSurface 1%nat) loadedWorld))
     = massDistancePairs (plank loadedWorld)
  /\ massesOnSurface (plank (exec (removeMassFromSurface 7%nat) loadedWorld)) = [2%nat]
  /\ (forall mass w,
        mass ∈ massesOnSurface (plank w) ->
        massesOnSurface (plank (exec (removeMassFromSurface mass) w)) = [mass])
  /\ (forall mass w,
        mass ∉ massesOnSurface (plank w) ->
        massesOnSurface (plank (exec (removeMassFromSurface mass) w))
        = drop (length (massesOnSurface (plank w)) - 1) (massesOnSurface (plank w)))
  /\ currentNetTorque (plank freshWorld) = 0
  /\ currentNetTorque (plank (exec (removeMassFromSurface 7%nat) freshWorld)) = 1.
Proof.
  split; [| split; [| split; [| split; [| split; [| split; [| split]]]]]].
  - reflexivity.
  - reflexivity.
  - vm_compute. reflexivity.
  - reflexivity.
  - exact removeMassFromSurface_attached.
  - exact removeMassFromSurface_absent.
  - reflexivity.
  - reflexivity.
Qed.

(** C7.  With at least one mass on the surface [isBalanced] throws a
    [TypeError] and returns no boolean, whatever the masses and their
    distances: so it does for the two 5 kg bricks at -0.5 m and +0.5 m, and
    for the single brick at -0.5 m.  With no mass on the surface it returns
    true. *)
Theorem isBalanced_throws_with_masses :
  (forall w mass others,
     outcome isBalanced
       (mkWorld (set_massesOnSurface (mass :: others) (plank w)) (masses w))
     = Throw (TypeError "Cannot read property 'getMassDistanceFromCenter' of undefined"))
  /\ outcome isBalanced loadedWorld
     = Throw (TypeError "Cannot read property 'getMassDistanceFromCenter' of undefined")
  /\ outcome isBalanced oneBrickWorld
     = Throw (TypeError "Cannot read property 'getMassDistanceFromCenter' of undefined")
  /\ (forall w,
        outcome isBalanced (mkWorld (set_massesOnSurface [] (plank w)) (masses w))
        = Normal true).
Proof.
  split; [| split; [| split]]; reflexivity.
Qed.

(** C8.  With at least one mass on the surface [removeAllMasses] throws a
    [TypeError] at the first mass and changes nothing: on the plank with
    bricks 1 and 2 the surface list and the force vectors are what they
    were.  With no mass on the surface it ends normally and changes
    nothing. *)
Theorem removeAllMasses_throws_with_masses :
  (forall w mass others,
     let loaded := mkWorld (set_massesOnSurface (mass :: others) (plank w)) (masses w) in
     removeAllMasses loaded
     = (Throw (TypeError "thisPlank.removeMass is not a function"), loaded))
  /\ removeAllMasses loadedWorld
     = (Throw (TypeError "thisPlank.removeMass is not a function"), loadedWorld)
  /\ massesOnSurface (plank (exec removeAllMasses loadedWorld)) = [1%nat; 2%nat]
  /\ (forall w,
        let empty := mkWorld (set_massesOnSurface [] (plank w)) (masses w) in
        removeAllMasses empty = (Normal tt, empty)).
Proof.
  split; [| split; [| split]]; reflexivity.
Qed.

(** On the level plank with brick 1 attached at (-0.5, 0.95), the choice
    among three locations for a drop right above the brick is the location
    the brick is on. *)
Lemma chooseOpenLocation_returns_occupied :
  Mass.position (mass_of oneBrickWorld 1%nat)
  = Vector2.raw_of (Vector2.mk (-0.5) 0.95)
  /\ massesOnSurface (plank oneBrickWorld) = [1%nat]
  /\ outcome (chooseOpenLocation (G := level_geometry)
                (Vector2.raw_of (Vector2.mk (-0.5) 1.2))
                locationsAroundBrick) oneBrickWorld
     = Normal (Some (Vector2.mk (-0.5) 0.95)).
Proof. repeat split; reflexivity. Qed.



(** *** Witnesses *)

Lemma step_keeps_tilt_within_limit_witness :
  0 <= maxTiltAngle (plank forcedWorld)
  /\ ~ Qabs (tiltAngle (plank forcedWorld)) <= maxTiltAngle (plank forcedWorld)
  /\ Forall (fun w' => Qabs (tiltAngle (plank w')) <= maxTiltAngle (plank w'))
            (stepTrace (G := level_geometry) [1; 1000; 0.5; 1000] forcedWorld)
  /\ tiltAngle (plank (exec (step (G := level_geometry) 1) forcedWorld))
     == maxTiltAngle (plank forcedWorld)
  /\ angularVelocity (plank (exec (step (G := level_geometry) 1) forcedWorld)) = 0.
Proof.
  assert (Hmax : 0 <= maxTiltAngle (plank forcedWorld))
    by (apply Qle_bool_iff; reflexivity).
  assert (Hout : ~ Qabs (tiltAngle (plank forcedWorld))
                   <= maxTiltAngle (plank forcedWorld))
    by (apply Qlt_not_le; reflexivity).
  destruct (step_keeps_tilt_within_limit (G := level_geometry) forcedWorld
              [1; 1000; 0.5; 1000] Hmax) as (Htrace & _ & Hclamp).
  assert (Hover : maxTiltAngle (plank forcedWorld)
                  < Qabs (tiltAngle (advance 1 (plank forcedWorld))))
    by reflexivity.
  destruct (Hclamp 1 eq_refl Hover) as (_ & Hpos & Hvel).
  assert (Hraw : 0 <= tiltAngle (advance 1 (plank forcedWorld)))
    by (apply Qle_bool_iff; reflexivity).
  exact (conj Hmax (conj Hout (conj (Htrace eq_refl) (conj (Hpos Hraw) Hvel)))).
Defined.

(** The claim C2 as it is stated fails in two reachable worlds: on the
    plank forced to the angle 1 and then user controlled, a step leaves the
    angle at 1, over the limit 0.4; on the plank built below the ground the
    limit is negative, and a step leaves the angle at its absolute
    value. *)
Lemma step_leaves_tilt_over_limit :
  reachable (G := level_geometry) heldWorld
  /\ ~ Qabs (tiltAngle (plank (exec (step (G := level_geometry) 1) heldWorld)))
       <= maxTiltAngle (plank (exec (step (G := level_geometry) 1) heldWorld))
  /\ reachable (G := level_geometry) sunkWorld
  /\ ~ Qabs (tiltAngle (plank (exec (step (G := level_geometry) 1) sunkWorld)))
       <= maxTiltAngle (plank (exec (step (G := level_geometry) 1) sunkWorld)).
Proof.
  repeat match goal with |- _ /\ _ => split end.
  - apply reach_userControlled, reach_forceAngle, freshWorld_reachable.
  - apply Qlt_not_le. reflexivity.
  - exact (reach_new (Vector2.mk 0 (-0.9)) (Vector2.mk 0 (-0.9)) "none" _
             twoBricks eq_refl).
  - apply Qlt_not_le. reflexivity.
Qed.

(** ** Further properties of the plank *)

Section More.
Context {G : Geometry}.

Ltac run_keeps :=
  first
    [ apply keeps_ret | apply keeps_throw | apply keeps_get | apply keeps_lift
    | apply keeps_get_mass | apply keeps_assert | apply keeps_member_of_this
    | apply keeps_bind; [| intros ?]
    | apply keeps_forEach; intros ? ? ?
    | apply keeps_for_indices; intros ? ?
    | match goal with
      | |- keeps _ (if ?b then _ else _) => destruct b
      | |- keeps _ (match ?x with _ => _ end) => destruct x
      end ].

Ltac by_cases :=
  repeat match goal with
         | |- context [if ?c then _ else _] => destruct c
         end.

Ltac same :=
  try first [ intros ? ? Hw; exact Hw | intros ? Hw; exact Hw
            | intros ? ? ? Hw; exact Hw ].

(** *** What the methods leave alone *)

Lemma updateMassPositions_world w : exec updateMassPositions w = w.
Proof.
  unfold exec, updateMassPositions.
  erewrite bind_normal by reflexivity.
  destruct (massesOnSurface (plank w)) as [| m onSurface]; [| reflexivity].
  cbn [forEach]. erewrite bind_normal by reflexivity.
  erewrite bind_normal by reflexivity. now rewrite forEach_nothing.
Qed.

Lemma keeps_updateMassPositions_any I : keeps I updateMassPositions.
Proof. intros w Hw. now rewrite updateMassPositions_world. Qed.

Lemma updateNetTorque_fixedParts p : fixedParts (updateNetTorque p) = fixedParts p.
Proof. unfold updateNetTorque. simpl. by_cases; reflexivity. Qed.

Lemma advance_fixedParts dt p : fixedParts (advance dt p) = fixedParts p.
Proof.
  unfold advance. cbv zeta.
  change (fixedParts (updateNetTorque p) = fixedParts p).
  apply updateNetTorque_fixedParts.
Qed.

Lemma limit_fixedParts p : fixedParts (limit p) = fixedParts p.
Proof. unfold limit. by_cases; reflexivity. Qed.

Lemma updateNetTorque_listsAndFlags p :
  listsAndFlags (updateNetTorque p) = listsAndFlags p.
Proof. unfold updateNetTorque. simpl. by_cases; reflexivity. Qed.

Lemma limit_advance_listsAndFlags dt p :
  listsAndFlags (limit (advance dt p)) = listsAndFlags p.
Proof.
  transitivity (listsAndFlags (advance dt p)).
  - unfold limit. by_cases; reflexivity.
  - unfold advance. cbv zeta.
    change (listsAndFlags (updateNetTorque p) = listsAndFlags p).
    apply updateNetTorque_listsAndFlags.
Qed.

(** X1.  In every reachable world nothing is on the plank: the list of
    masses, the list of force vectors and the distance records are empty,
    [isBalanced] returns true and [removeAllMasses] ends normally, both
    leaving the world as it is. *)
Theorem reachable_plank_never_loaded (w : World) :
  reachable w ->
  massesOnSurface (plank w) = []
  /\ forceVectors (plank w) = []
  /\ massDistancePairs (plank w) = Js.empty_array
  /\ isBalanced w = (Normal true, w)
  /\ removeAllMasses w = (Normal tt, w).
Proof.
  intros Hr. destruct (reachable_unloaded w Hr) as (Hm & Hv & Hd).
  repeat split; try assumption.
  - unfold isBalanced. erewrite bind_normal by reflexivity. now rewrite Hm.
  - unfold removeAllMasses. erewrite bind_normal by reflexivity. now rewrite Hm.
Qed.

(** X2.  No method of the plank changes [bottomCenterLocation],
    [pivotPoint], [maxTiltAngle] or [unrotatedShape], however the call
    ends: [updatePlank] writes the rotated bottom center to the separate
    field [bottomCenterPoint]. *)
Theorem methods_keep_fixedParts (w : World) :
  (forall dt, fixedParts (plank (exec (step dt) w)) = fixedParts (plank w))
  /\ (forall angle, fixedParts (plank (exec (forceAngle angle) w)) = fixedParts (plank w))
  /\ fixedParts (plank (exec forceToLevelAndStill w)) = fixedParts (plank w)
  /\ fixedParts (plank (exec forceToMaxAndStill w)) = fixedParts (plank w)
  /\ fixedParts (plank (exec updatePlank w)) = fixedParts (plank w)
  /\ (forall mass, fixedParts (plank (exec (addMassToSurface mass) w))
                   = fixedParts (plank w))
  /\ (forall mass d, fixedParts (plank (exec (addMassToSurfaceAt mass d) w))
                     = fixedParts (plank w))
  /\ (forall mass, fixedParts (plank (exec (removeMassFromSurface mass) w))
                   = fixedParts (plank w))
  /\ fixedParts (plank (exec removeAllMasses w)) = fixedParts (plank w).
Proof.
  set (I := fun w' : World => fixedParts (plank w') = fixedParts (plank w)).
  assert (Hforce : forall angle, keeps I (forceAngle angle))
    by (intros angle; apply keeps_forceAngle; same).
  assert (Hstart : I w) by reflexivity.
  repeat match goal with |- _ /\ _ => split end; intros; revert Hstart.
  - apply (keeps_step_method I dt); same.
    intros w' Hw'. unfold I in *.
    change (fixedParts (limit (advance dt (plank w'))) = fixedParts (plank w)).
    now rewrite limit_fixedParts, advance_fixedParts.
  - apply (Hforce angle).
  - apply (Hforce 0.0).
  - apply (keeps_bind I (get maxTiltAngle) forceAngle);
      [apply keeps_get | exact Hforce].
  - assert (Hk : keeps I updatePlank) by (apply keeps_updatePlank; same).
    exact (Hk w).
  - exact (keeps_addMassToSurface I mass w).
  - apply (keeps_addMassToSurfaceAt I mass d); same.
  - apply (keeps_removeMassFromSurface I mass); same.
    intros w' Hw'. unfold I in *.
    change (fixedParts (updateNetTorque (plank w')) = fixedParts (plank w)).
    now rewrite updateNetTorque_fixedParts.
  - exact (keeps_removeAllMasses I w).
Qed.

Lemma step_frame dt w :
  masses (exec (step dt) w) = masses w
  /\ listsAndFlags (plank (exec (step dt) w)) = listsAndFlags (plank w).
Proof.
  set (I := fun w' : World =>
              masses w' = masses w
              /\ listsAndFlags (plank w') = listsAndFlags (plank w)).
  assert (Hk : keeps I (step dt)).
  { unfold step.
    repeat first
      [ apply keeps_updateMassPositions_any
      | apply keeps_updatePlank; same
      | apply keeps_assign
      | run_keeps ].
    intros w' [Hm Hl]. split; [exact Hm |].
    change (listsAndFlags (limit (advance dt (plank w'))) = listsAndFlags (plank w)).
    now rewrite limit_advance_listsAndFlags. }
  exact (Hk w (conj eq_refl eq_refl)).
Qed.

(** X3.  [step] never changes a mass object, the list of masses, the list
    of force vectors, the distance records, the column state or the
    user-controlled flag: the callback of [updateMassPositions] throws
    before its first assignment.  On a user-controlled plank [step] changes
    nothing at all. *)
Theorem step_leaves_masses_and_lists (w : World) (dt : Q) :
  masses (exec (step dt) w) = masses w
  /\ listsAndFlags (plank (exec (step dt) w)) = listsAndFlags (plank w)
  /\ exec updateMassPositions w = w
  /\ (userControlled (plank w) = true -> exec (step dt) w = w).
Proof.
  destruct (step_frame dt w) as [Hm Hl].
  repeat match goal with |- _ /\ _ => split end; try assumption.
  - apply updateMassPositions_world.
  - apply step_userControlled.
Qed.

(** *** The surface of the plank *)

Lemma surface_center_value p x :
  getSurfaceYValue p x = None /\ Vector2.rawX (getPlankSurfaceCenter p) = None.
Proof.
  split; [| reflexivity]. unfold getSurfaceYValue. cbv zeta.
  change (Vector2.rawX (getPlankSurfaceCenter p)) with (@None Q).
  destruct (Js.mul (Some (tan (tiltAngle p))) x) as [mx |],
           (Vector2.rawY (getPlankSurfaceCenter p)) as [cy |]; reflexivity.
Qed.

(** X4.  The x field of the center that [getPlankSurfaceCenter] returns
    is not a number, whatever the plank: line 363 hands
    [bottomCenterLocation] to [new Vector2] as its only argument.  So
    [getSurfaceYValue] is not a number for any x, and neither is the
    distance of any point from that center. *)
Theorem surface_center_not_a_number (p : Plank) :
  Vector2.rawX (getPlankSurfaceCenter p) = None
  /\ (forall x, getSurfaceYValue p x = None)
  /\ (forall pt, distance_raw (getPlankSurfaceCenter p) pt = None
                 /\ distance_raw pt (getPlankSurfaceCenter p) = None).
Proof.
  split; [reflexivity |]. split.
  - intros x. apply surface_center_value.
  - intros pt. unfold distance_raw, Vector2.numbers.
    change (Vector2.rawX (getPlankSurfaceCenter p)) with (@None Q).
    split; [reflexivity |].
    destruct (Vector2.rawX pt), (Vector2.rawY pt); reflexivity.
Qed.

Lemma isPointAbovePlank_false p pt : isPointAbovePlank p pt = false.
Proof.
  unfold isPointAbovePlank. cbv zeta.
  destruct (surface_center_value p (Vector2.rawX pt)) as [-> _].
  destruct (Vector2.rawY pt) as [y |]; cbn [Js.gt Js.relation];
    now rewrite andb_false_r.
Qed.

(** X5.  [isPointAbovePlank] answers false for every plank and every
    point, also for one high above the middle of the plank: the height it
    compares the point with is not a number.  So the middle point of no
    mass is above the plank, wherever the mass is. *)
Theorem isPointAbovePlank_always_false (w : World) :
  (forall pt, isPointAbovePlank (plank w) pt = false)
  /\ (forall x y, isPointAbovePlank (plank w) (Vector2.raw_of (Vector2.mk x y)) = false)
  /\ (forall mass,
        isPointAbovePlank (plank w) (Mass.getMiddlePoint (mass_of w mass)) = false).
Proof. repeat split; intros; apply isPointAbovePlank_false. Qed.

(** X9.  [isTickMarkOccupied] returns false for every plank and every tick
    mark, whatever is on the plank: the bound of its loop is the list of
    masses itself, which as a number is 0 or not a number. *)
Theorem isTickMarkOccupied_always_false (p : Plank) (tickMark : Shape) :
  isTickMarkOccupied p tickMark = Normal false.
Proof.
  unfold isTickMarkOccupied, Js.to_number. cbv zeta. cbn [Js.elems].
  destruct (massesOnSurface p); reflexivity.
Qed.

(** *** The torque of the masses *)

Lemma fold_left_torque (px : Q) (pos : MassId -> Js.Num) (x m : MassId -> Q)
    (l : list MassId) : forall a,
  (forall mass, mass ∈ l -> pos mass = Some (x mass)) ->
  exists torque,
    fold_left (fun torque mass =>
                 Js.add torque (Js.sub (Some px) (Js.mul (pos mass) (Some (m mass)))))
              l (Some a)
    = Some torque
    /\ torque == a + (inject_Z (Z.of_nat (length l)) * px
                      - Qsum (map (fun mass => x mass * m mass) l)).
Proof.
  induction l as [| mass l IH]; intros a Hpos.
  - exists a. split; [reflexivity | cbn; ring].
  - cbn [fold_left]. rewrite (Hpos mass) by left.
    destruct (IH (a + (px - x mass * m mass))) as (torque & Hfold & Ht).
    { intros other Hin. apply Hpos. now right. }
    exists torque. split; [exact Hfold |]. rewrite Ht.
    cbn [length map Qsum fold_right].
    fold (Qsum (map (fun mass => x mass * m mass) l)).
    rewrite Nat2Z.inj_succ. unfold Z.succ. rewrite inject_Z_plus. ring.
Qed.

Lemma fold_left_torque_lost (px : Q) (pos : MassId -> Js.Num) (m : MassId -> Q)
    (l : list MassId) :
  fold_left (fun torque mass =>
               Js.add torque (Js.sub (Some px) (Js.mul (pos mass) (Some (m mass)))))
            l None
  = None.
Proof. induction l as [| mass l IH]; [reflexivity | exact IH]. Qed.

Lemma fold_left_torque_none (px : Q) (pos : MassId -> Js.Num) (m : MassId -> Q)
    (l : list MassId) bad : forall a,
  bad ∈ l -> pos bad = None ->
  fold_left (fun torque mass =>
               Js.add torque (Js.sub (Some px) (Js.mul (pos mass) (Some (m mass)))))
            l a
  = None.
Proof.
  induction l as [| mass l IH]; intros a Hin Hbad; [inversion Hin |].
  cbn [fold_left]. inversion Hin; subst.
  - rewrite Hbad.
    match goal with
    | |- fold_left _ _ ?start = _ =>
        replace start with (@None Q) by (now destruct a)
    end.
    apply fold_left_torque_lost.
  - now apply IH.
Qed.

(** X10.  [getTorqueDueToMasses] adds, for each mass on the surface, the
    pivot's x coordinate minus the product of the mass's x coordinate and
    its mass value: when those coordinates are numbers the result is the
    number of masses times [pivotPoint.x] minus the sum of the products;
    when one of them is not a number, neither is the result. *)
Theorem getTorqueDueToMasses_closed_form (w : World) :
  (forall x : MassId -> Q,
     (forall mass, mass ∈ massesOnSurface (plank w) ->
                   Vector2.rawX (Mass.position (mass_of w mass)) = Some (x mass)) ->
     exists torque,
       getTorqueDueToMasses w = Some torque
       /\ torque
          == inject_Z (Z.of_nat (length (massesOnSurface (plank w))))
             * Vector2.x (pivotPoint (plank w))
             - Qsum (map (fun mass => x mass * Mass.mass (mass_of w mass))
                         (massesOnSurface (plank w))))
  /\ (forall mass,
        mass ∈ massesOnSurface (plank w) ->
        Vector2.rawX (Mass.position (mass_of w mass)) = None ->
        getTorqueDueToMasses w = None).
Proof.
  split.
  - intros x Hpos. unfold getTorqueDueToMasses.
    destruct (fold_left_torque (Vector2.x (pivotPoint (plank w)))
                (fun mass => Vector2.rawX (Mass.position (mass_of w mass)))
                x (fun mass => Mass.mass (mass_of w mass))
                (massesOnSurface (plank w)) 0 Hpos) as (torque & Hfold & Ht).
    exists torque. split; [exact Hfold |]. rewrite Ht. ring.
  - intros mass Hin Hbad. unfold getTorqueDueToMasses.
    exact (fold_left_torque_none _
             (fun mass => Vector2.rawX (Mass.position (mass_of w mass)))
             (fun mass => Mass.mass (mass_of w mass)) _ mass _ Hin Hbad).
Qed.

(** *** Steps and forced angles *)

Lemma advance_velocity_band dt p :
  angularVelocity (advance dt p) = 0
  \/ 0.00001 < Qabs (angularVelocity (advance dt p)).
Proof.
  unfold advance. cbv zeta.
  cbn [angularVelocity set_tiltAngle set_angularVelocity].
  match goal with |- context [if ?c then _ else _] => destruct c eqn:Hc end.
  - right. now apply gtb_true in Hc.
  - now left.
Qed.

Lemma limit_bands q :
  (tiltAngle (limit q) = 0
   \/ 0.0001 <= Qabs (tiltAngle (limit q))
   \/ Qabs (tiltAngle (limit q)) == Qabs (maxTiltAngle q))
  /\ (angularVelocity (limit q) = 0
      \/ angularVelocity (limit q) = angularVelocity q).
Proof.
  unfold limit.
  destruct (Js.gtb (Qabs (tiltAngle q)) (maxTiltAngle q)).
  - cbn [tiltAngle angularVelocity set_tiltAngle set_angularVelocity].
    split; [| now left]. right. right. rewrite Qabs_Qmult.
    destruct (Js.ltb (tiltAngle q) 0).
    + change (Qabs (-1)) with 1. ring.
    + change (Qabs 1) with 1. ring.
  - destruct (Js.ltb (Qabs (tiltAngle q)) 0.0001) eqn:Hlow;
      cbn [tiltAngle angularVelocity set_tiltAngle].
    + split; [now left | now right].
    + apply ltb_false in Hlow. split; [right; now left | now right].
Qed.

(** X7.  After [step] on a plank that is not user controlled, [tiltAngle]
    is exactly 0, or at least 0.0001 in absolute value, or at the limit;
    and [angularVelocity] is exactly 0 or more than 0.00001 in absolute
    value. *)
Theorem step_dead_bands (w : World) (dt : Q) :
  userControlled (plank w) = false ->
  (tiltAngle (plank (exec (step dt) w)) = 0
   \/ 0.0001 <= Qabs (tiltAngle (plank (exec (step dt) w)))
   \/ Qabs (tiltAngle (plank (exec (step dt) w))) == Qabs (maxTiltAngle (plank w)))
  /\ (angularVelocity (plank (exec (step dt) w)) = 0
      \/ 0.00001 < Qabs (angularVelocity (plank (exec (step dt) w)))).
Proof.
  intros Huc.
  apply (step_after
           (fun w' =>
              (tiltAngle (plank w') = 0
               \/ 0.0001 <= Qabs (tiltAngle (plank w'))
               \/ Qabs (tiltAngle (plank w')) == Qabs (maxTiltAngle (plank w)))
              /\ (angularVelocity (plank w') = 0
                  \/ 0.00001 < Qabs (angularVelocity (plank w')))));
    same; [exact Huc |].
  cbn [plank].
  destruct (limit_bands (advance dt (plank w))) as [Ht Hv].
  destruct (advance_frame dt (plank w)) as (Hm & _). rewrite Hm in Ht.
  split; [exact Ht |].
  destruct Hv as [Hv | Hv]; [now left |]. rewrite Hv.
  apply advance_velocity_band.
Qed.

(** X8.  With no support columns and a limit of at least 0.001,
    [updateNetTorque] turns the plank back at a limit: within 0.001 of the
    positive limit it sets the torque to -1, within 0.001 of the negative
    limit to 1, whichever way the plank was turning; away from both limits
    it keeps the direction. *)
Theorem updateNetTorque_turns_back_at_limit (p : Plank) :
  String.eqb (columnState p) "none" = true ->
  0.001 <= maxTiltAngle p ->
  (maxTiltAngle p - tiltAngle p < 0.001 ->
   currentNetTorque (updateNetTorque p) = -1
   /\ turningRight (updateNetTorque p) = false)
  /\ (maxTiltAngle p + tiltAngle p < 0.001 ->
      currentNetTorque (updateNetTorque p) = 1
      /\ turningRight (updateNetTorque p) = true)
  /\ (0.001 <= maxTiltAngle p - tiltAngle p ->
      0.001 <= maxTiltAngle p + tiltAngle p ->
      turningRight (updateNetTorque p) = turningRight p).
Proof.
  intros Hc Hmax. unfold updateNetTorque.
  cbn [columnState set_currentNetTorque turningRight maxTiltAngle tiltAngle].
  rewrite Hc.
  destruct (Js.ltb (maxTiltAngle p - tiltAngle p) 0.001) eqn:Hhigh;
    destruct (Js.ltb (maxTiltAngle p + tiltAngle p) 0.001) eqn:Hlow;
    try apply ltb_true in Hhigh; try apply ltb_false in Hhigh;
    try apply ltb_true in Hlow; try apply ltb_false in Hlow;
    destruct (turningRight p) eqn:Hturn; cbn; rewrite ?Hturn;
    repeat split; intros; try reflexivity; try lra.
Qed.

Lemma forceAngle_world angle w :
  exec (forceAngle angle) w
  = exec (updatePlank ;; updateMassPositions)
         (mkWorld (set_tiltAngle angle (set_angularVelocity 0 (plank w))) (masses w)).
Proof.
  unfold exec, forceAngle. do 2 (erewrite bind_normal by reflexivity). reflexivity.
Qed.

Lemma forceAngle_outcome angle w :
  outcome (forceAngle angle) w
  = outcome (updatePlank ;; updateMassPositions)
            (mkWorld (set_tiltAngle angle (set_angularVelocity 0 (plank w))) (masses w)).
Proof.
  unfold outcome, forceAngle. do 2 (erewrite bind_normal by reflexivity). reflexivity.
Qed.

Lemma forceAngle_pivot_error angle w :
  Js.geb_opt (Vector2.y (pivotPoint (plank w)))
             (shapeMinY (unrotatedShape (plank w))) = true ->
  outcome (forceAngle angle) w = Throw (Error "Pivot point cannot be below the plank.")
  /\ shape (plank (exec (forceAngle angle) w)) = shape (plank w).
Proof.
  destruct w as [p heap]. destruct p. cbn. intros Hgeb.
  unfold outcome, exec, forceAngle, bind, assign, updatePlank, get, throw. cbn.
  rewrite Hgeb. split; reflexivity.
Qed.

Lemma forceAngle_normal angle w :
  Js.geb_opt (Vector2.y (pivotPoint (plank w)))
             (shapeMinY (unrotatedShape (plank w))) = false ->
  massesOnSurface (plank w) = [] ->
  outcome (forceAngle angle) w = Normal tt
  /\ shape (plank (exec (forceAngle angle) w))
     = shapeRotatedAround angle (Vector2.x (pivotPoint (plank w)))
         (Vector2.y (pivotPoint (plank w))) (unrotatedShape (plank w)).
Proof.
  destruct w as [p heap]. destruct p. cbn. intros Hgeb ->.
  unfold outcome, exec, forceAngle, bind, assign, updatePlank, get, throw. cbn.
  rewrite Hgeb. cbn. rewrite forEach_nothing. split; reflexivity.
Qed.

(** X6.  [forceAngle( angle )] leaves [tiltAngle] at [angle], which it does
    not limit, and [angularVelocity] at 0, and changes no mass, however it
    ends.  It throws the pivot error, with the shape as it was, when the
    pivot's y is at least [unrotatedShape.minY]; otherwise, on a plank
    without masses, it ends normally with the shape rotated by [angle]. *)
Theorem forceAngle_sets_angle (w : World) (angle : Q) :
  tiltAngle (plank (exec (forceAngle angle) w)) = angle
  /\ angularVelocity (plank (exec (forceAngle angle) w)) = 0
  /\ masses (exec (forceAngle angle) w) = masses w
  /\ (Js.geb_opt (Vector2.y (pivotPoint (plank w)))
                 (shapeMinY (unrotatedShape (plank w))) = true ->
      outcome (forceAngle angle) w
      = Throw (Error "Pivot point cannot be below the plank.")
      /\ shape (plank (exec (forceAngle angle) w)) = shape (plank w))
  /\ (Js.geb_opt (Vector2.y (pivotPoint (plank w)))
                 (shapeMinY (unrotatedShape (plank w))) = false ->
      massesOnSurface (plank w) = [] ->
      outcome (forceAngle angle) w = Normal tt
      /\ shape (plank (exec (forceAngle angle) w))
         = shapeRotatedAround angle (Vector2.x (pivotPoint (plank w)))
             (Vector2.y (pivotPoint (plank w))) (unrotatedShape (plank w))).
Proof.
  set (I := fun w' : World =>
              tiltAngle (plank w') = angle
              /\ angularVelocity (plank w') = 0
              /\ masses w' = masses w).
  assert (Hk : keeps I (updatePlank ;; updateMassPositions)).
  { apply keeps_bind; [apply keeps_updatePlank; same |].
    intros _. apply keeps_updateMassPositions_any. }
  rewrite forceAngle_world, forceAngle_outcome.
  assert (Hstart : I (mkWorld (set_tiltAngle angle (set_angularVelocity 0 (plank w)))
                              (masses w)))
    by (repeat split).
  destruct (Hk _ Hstart) as (Ht & Hv & Hm).
  repeat match goal with |- _ /\ _ => split end; try assumption.
  - rewrite <- forceAngle_outcome, <- forceAngle_world.
    now apply forceAngle_pivot_error.
  - rewrite <- forceAngle_outcome, <- forceAngle_world.
    now apply forceAngle_normal.
Qed.

Lemma step_propped_still_state dt w :
  String.eqb (columnState (plank w)) "none" = false ->
  angularVelocity (plank w) == 0 ->
  Qabs (tiltAngle (plank w)) <= maxTiltAngle (plank w) ->
  tiltAngle (plank w) == 0 \/ 0.0001 <= Qabs (tiltAngle (plank w)) ->
  let w' := exec (step dt) w in
  String.eqb (columnState (plank w')) "none" = false
  /\ angularVelocity (plank w') == 0
  /\ tiltAngle (plank w') == tiltAngle (plank w)
  /\ maxTiltAngle (plank w') = maxTiltAngle (plank w).
Proof.
  intros Hc Hv Hmax Hband w'. subst w'.
  destruct (step_frame dt w) as [_ Hl].
  assert (Hcol : columnState (plank (exec (step dt) w)) = columnState (plank w))
    by (unfold listsAndFlags in Hl; congruence).
  rewrite Hcol. split; [exact Hc |]. split; [| split].
  - destruct (userControlled (plank w)) eqn:Huc.
    + rewrite step_userControlled by exact Huc. exact Hv.
    + apply (step_after (fun w' => angularVelocity (plank w') == 0)); same;
        [exact Huc |].
      cbn [plank].
      destruct (advance_propped_still dt (plank w) Hc Hv) as (_ & Hv' & _).
      destruct (limit_bands (advance dt (plank w))) as [_ [H0 | Hsame]].
      * now rewrite H0.
      * now rewrite Hsame, Hv'.
  - now apply step_propped_still.
  - apply step_maxTiltAngle.
Qed.

Lemma propped_still_trace dts : forall w t,
  String.eqb (columnState (plank w)) "none" = false ->
  angularVelocity (plank w) == 0 ->
  Qabs (tiltAngle (plank w)) <= maxTiltAngle (plank w) ->
  tiltAngle (plank w) == 0 \/ 0.0001 <= Qabs (tiltAngle (plank w)) ->
  tiltAngle (plank w) == t ->
  Forall (fun w' => tiltAngle (plank w') == t /\ angularVelocity (plank w') == 0)
         (stepTrace dts w).
Proof.
  induction dts as [| dt rest IH]; intros w t Hc Hv Hmax Hband Ht; simpl.
  - constructor.
  - destruct (step_propped_still_state dt w Hc Hv Hmax Hband)
      as (Hc' & Hv' & Ht' & Hm').
    constructor.
    + split; [now rewrite Ht' | exact Hv'].
    + apply IH; try assumption.
      * now rewrite Hm', Ht'.
      * destruct Hband as [H0 | Hfar]; [left | right]; now rewrite Ht'.
      * now rewrite Ht'.
Qed.

(** X14.  A plank on support columns that is still, within the limit, and
    level or at least 0.0001 away from level, stays as it is through any
    sequence of [step] calls: after each of them [tiltAngle] is what it was
    and [angularVelocity] is 0. *)
Theorem propped_still_plank_stays (w : World) (dts : list Q) :
  String.eqb (columnState (plank w)) "none" = false ->
  angularVelocity (plank w) == 0 ->
  Qabs (tiltAngle (plank w)) <= maxTiltAngle (plank w) ->
  tiltAngle (plank w) == 0 \/ 0.0001 <= Qabs (tiltAngle (plank w)) ->
  Forall (fun w' => tiltAngle (plank w') == tiltAngle (plank w)
                    /\ angularVelocity (plank w') == 0)
         (stepTrace dts w).
Proof.
  intros Hc Hv Hmax Hband. now apply propped_still_trace.
Qed.

(** *** The mass objects *)

Lemma removeMassFromSurface_masses mass w :
  masses (exec (removeMassFromSurface mass) w)
  = <[mass := Mass.set_onPlank false (Mass.set_rotationAngle 0 (mass_of w mass))]>
      (masses w).
Proof.
  unfold exec, removeMassFromSurface.
  do 4 (erewrite bind_normal by reflexivity).
  match goal with
  | |- masses (snd (?c ?w4)) = _ =>
      assert (Hk : keeps (fun w' => masses w' = masses w4) c)
  end.
  { repeat first [ apply keeps_assign; same | run_keeps ]. }
  etransitivity; [exact (Hk _ eq_refl) |].
  cbn [masses plank]. unfold mass_of at 1. cbn [masses].
  rewrite lookup_insert_eq. cbn [default]. now rewrite insert_insert_eq.
Qed.

(** X12.  [removeMassFromSurface( mass )] leaves the rotation angle of the
    mass at 0 and its [onPlank] flag false, keeps its position, and changes
    no other mass object, whether or not the mass was on the plank and
    however the call ends. *)
Theorem removeMassFromSurface_resets_mass (w : World) (mass : MassId) :
  Mass.rotationAngle (mass_of (exec (removeMassFromSurface mass) w) mass) = 0
  /\ Mass.onPlank (mass_of (exec (removeMassFromSurface mass) w) mass) = false
  /\ Mass.position (mass_of (exec (removeMassFromSurface mass) w) mass)
     = Mass.position (mass_of w mass)
  /\ (forall other, other <> mass ->
        masses (exec (removeMassFromSurface mass) w) !! other = masses w !! other).
Proof.
  unfold mass_of at 1 2 3. rewrite removeMassFromSurface_masses.
  rewrite lookup_insert_eq. cbn [default].
  repeat match goal with |- _ /\ _ => split end; try reflexivity.
  intros other Hne. now rewrite lookup_insert_ne by congruence.
Qed.

Lemma addMassToSurfaceAt_beyond mass d w :
  PLANK_LENGTH / 2 < d ->
  addMassToSurfaceAt mass d w
  = (Throw AssertionFailed,
     mkWorld (plank w)
       (<[mass := Mass.set_position (Vector2.mkRaw None None) (mass_of w mass)]>
          (masses w))).
Proof.
  intros Hd. unfold addMassToSurfaceAt.
  replace (Js.leb d (PLANK_LENGTH / 2)) with false
    by (symmetry; apply not_true_iff_false; rewrite leb_true; lra).
  do 5 (erewrite bind_normal by reflexivity).
  rewrite isPointAbovePlank_false. reflexivity.
Qed.

(** X13.  For a distance beyond half the plank's length, the only ones its
    guard lets through, [addMassToSurfaceAt] fails at its assertion of
    line 192 and never gets to [addMassToSurface]; by then it has set the
    position of the mass, whose x is no longer a number.  The other
    fields of the mass, the other masses and the plank are as they
    were. *)
Theorem addMassToSurfaceAt_spoils_position (w : World) (mass : MassId) (d : Q) :
  PLANK_LENGTH / 2 < d ->
  outcome (addMassToSurfaceAt mass d) w = Throw AssertionFailed
  /\ Vector2.rawX (Mass.position (mass_of (exec (addMassToSurfaceAt mass d) w) mass))
     = None
  /\ Mass.mass (mass_of (exec (addMassToSurfaceAt mass d) w) mass)
     = Mass.mass (mass_of w mass)
  /\ Mass.onPlank (mass_of (exec (addMassToSurfaceAt mass d) w) mass)
     = Mass.onPlank (mass_of w mass)
  /\ Mass.rotationAngle (mass_of (exec (addMassToSurfaceAt mass d) w) mass)
     = Mass.rotationAngle (mass_of w mass)
  /\ (forall other, other <> mass ->
        masses (exec (addMassToSurfaceAt mass d) w) !! other = masses w !! other)
  /\ plank (exec (addMassToSurfaceAt mass d) w) = plank w.
Proof.
  intros Hd. unfold outcome, exec.
  rewrite (addMassToSurfaceAt_beyond mass d w Hd). cbn [fst snd].
  set (moved := Mass.set_position (Vector2.mkRaw None None) (mass_of w mass)).
  assert (Hmoved : mass_of (mkWorld (plank w) (<[mass := moved]> (masses w))) mass
                   = moved).
  { unfold mass_of at 1. cbn [masses]. now rewrite lookup_insert_eq. }
  rewrite Hmoved.
  repeat match goal with |- _ /\ _ => split end; try reflexivity.
  intros other Hne. cbn [masses]. now rewrite lookup_insert_ne by congruence.
Qed.

(** *** The choice of a location *)

Lemma inReach_leb pt c :
  Js.leb (Qabs (Vector2.x c - Vector2.x pt)) INTER_SNAP_TO_MARKER_DISTANCE = true
  <-> inReach pt c.
Proof. apply leb_true. Qed.

Lemma distance_raw_of a b :
  distance_raw (Vector2.raw_of a) (Vector2.raw_of b) = Some (distance a b).
Proof. destruct a, b. reflexivity. Qed.

(** The callback of lines 296-305 for a drop point whose fields are
    numbers. *)
Lemma closer_of_numbers pt acc cand :
  closer (Vector2.raw_of pt) acc (Some cand)
  = if Js.leb (Qabs (Vector2.x cand - Vector2.x pt)) INTER_SNAP_TO_MARKER_DISTANCE
    then match acc with
         | None => Some cand
         | Some a =>
             if Js.ltb (distance cand pt) (distance a pt) then Some cand else acc
         end
    else acc.
Proof.
  unfold closer.
  change (Js.le (Js.abs (Js.sub (Some (Vector2.x cand))
                                (Vector2.rawX (Vector2.raw_of pt))))
                (Some INTER_SNAP_TO_MARKER_DISTANCE))
    with (Js.leb (Qabs (Vector2.x cand - Vector2.x pt)) INTER_SNAP_TO_MARKER_DISTANCE).
  destruct (Js.leb _ _); [| reflexivity].
  destruct acc as [a |]; [| reflexivity].
  now rewrite !distance_raw_of.
Qed.

Lemma closer_fold pt (l : list (option Vector2.t)) : forall acc,
  match fold_left (closer (Vector2.raw_of pt)) l acc with
  | Some c =>
      (acc = Some c \/ (Some c ∈ l /\ inReach pt c))
      /\ (forall a, acc = Some a -> distance c pt <= distance a pt)
      /\ (forall c', Some c' ∈ l -> inReach pt c' ->
                     distance c pt <= distance c' pt)
  | None => acc = None /\ forall c', Some c' ∈ l -> ~ inReach pt c'
  end.
Proof.
  induction l as [| candidate l IH]; intros acc.
  - cbn. destruct acc as [a |].
    + split; [now left |]. split.
      * intros a' Ha. inversion Ha. lra.
      * intros c' Hin. inversion Hin.
    + split; [reflexivity |]. intros c' Hin. inversion Hin.
  - cbn [fold_left]. specialize (IH (closer (Vector2.raw_of pt) acc candidate)).
    destruct candidate as [cand |];
      [rewrite closer_of_numbers in IH |-
      | change (closer (Vector2.raw_of pt) acc None) with acc in IH |- * ].
    + destruct (fold_left (closer (Vector2.raw_of pt)) l _) as [c |] eqn:Hfold;
        rewrite closer_of_numbers, Hfold.
      * destruct IH as (Hfrom & Hacc & Hrest).
        destruct (Js.leb _ _) eqn:Hreach.
        -- apply inReach_leb in Hreach.
           destruct acc as [a |].
           ++ destruct (Js.ltb (distance cand pt) (distance a pt)) eqn:Hlt.
              ** apply ltb_true in Hlt. split; [| split].
                 --- right. destruct Hfrom as [Hc | [Hin Hr]].
                     +++ inversion Hc; subst. split; [left | exact Hreach].
                     +++ split; [now right | exact Hr].
                 --- intros a' Ha. inversion Ha; subst.
                     specialize (Hacc cand eq_refl). lra.
                 --- intros c' Hin Hr. inversion Hin; subst.
                     +++ now apply Hacc.
                     +++ now apply Hrest.
              ** apply ltb_false in Hlt. split; [| split].
                 --- destruct Hfrom as [Hc | [Hin Hr]];
                       [now left | right; split; [now right | exact Hr]].
                 --- exact Hacc.
                 --- intros c' Hin Hr. inversion Hin; subst.
                     +++ specialize (Hacc a eq_refl). lra.
                     +++ now apply Hrest.
           ++ split; [| split].
              ** right. destruct Hfrom as [Hc | [Hin Hr]].
                 --- inversion Hc; subst. split; [left | exact Hreach].
                 --- split; [now right | exact Hr].
              ** intros a Ha. discriminate Ha.
              ** intros c' Hin Hr. inversion Hin; subst.
                 --- now apply Hacc.
                 --- now apply Hrest.
        -- apply not_true_iff_false in Hreach. rewrite inReach_leb in Hreach.
           split; [| split].
           ++ destruct Hfrom as [Hc | [Hin Hr]];
                [now left | right; split; [now right | exact Hr]].
           ++ exact Hacc.
           ++ intros c' Hin Hr. inversion Hin; subst; [contradiction |].
              now apply Hrest.
      * destruct IH as (Hnone & Hrest).
        destruct (Js.leb _ _) eqn:Hreach.
        -- destruct acc as [a |]; [destruct (Js.ltb _ _) |]; discriminate Hnone.
        -- apply not_true_iff_false in Hreach. rewrite inReach_leb in Hreach.
           split; [exact Hnone |].
           intros c' Hin. inversion Hin; subst; [exact Hreach | now apply Hrest].
    + destruct (fold_left (closer (Vector2.raw_of pt)) l acc) as [c |].
      * destruct IH as (Hfrom & Hacc & Hrest). split; [| split].
        -- destruct Hfrom as [Hc | [Hin Hr]];
             [now left | right; split; [now right | exact Hr]].
        -- exact Hacc.
        -- intros c' Hin Hr. inversion Hin; subst. now apply Hrest.
      * destruct IH as (Hnone & Hrest). split; [exact Hnone |].
        intros c' Hin. inversion Hin; subst. now apply Hrest.
Qed.

(** A drop point whose x is not a number is in reach of no location. *)
Lemma closer_fold_no_number pt (l : list (option Vector2.t)) :
  Vector2.rawX pt = None -> fold_left (closer pt) l None = None.
Proof.
  intros Hx. induction l as [| candidate l IH]; [reflexivity |].
  cbn [fold_left]. destruct candidate as [cand |]; [| exact IH].
  unfold closer at 2. rewrite Hx. exact IH.
Qed.

(** What [splice( k, 1 )] leaves of an array. *)
Lemma splice_rest {A} (l : list A) (k : nat) :
  snd (Js.splice l (Z.of_nat k) 1) = take k l ++ drop (S k) l.
Proof.
  unfold Js.splice. cbn [snd].
  replace (Z.of_nat k <? 0)%Z with false by (symmetry; apply Z.ltb_ge; lia).
  destruct (Nat.lt_ge_cases k (length l)) as [Hlt | Hge].
  - replace (Z.to_nat (Z.min (Z.of_nat k) (Z.of_nat (length l)))) with k by lia.
    replace (Z.to_nat _) with 1%nat by lia.
    now rewrite Nat.add_1_r.
  - replace (Z.to_nat (Z.min (Z.of_nat k) (Z.of_nat (length l))))
      with (length l) by lia.
    replace (Z.to_nat _) with 0%nat by lia.
    rewrite Nat.add_0_r, (take_ge l k) by lia.
    rewrite (drop_ge l (S k)) by lia. now rewrite firstn_all, drop_all.
Qed.

(** X11.  Given an array of locations without empty slots and a drop point
    whose fields are numbers, lines 276-306 leave out the location at
    index 8 and return, of the others that are within
    [INTER_SNAP_TO_MARKER_DISTANCE] of the drop point in x, one that no
    other of them is closer to the drop point than; they return null
    exactly when none of the others is within that reach.  For a drop
    point whose x is not a number they return null.  The world is not
    changed. *)
Theorem chooseOpenLocation_nearest_in_reach
    (pt : Vector2.t) (locations : list Vector2.t) (w : World) :
  (exists chosen,
     chooseOpenLocation (Vector2.raw_of pt) (Some <$> locations) w
     = (Normal chosen, w)
     /\ (chosen = None <->
         forall c', c' ∈ take 8 locations ++ drop 9 locations -> ~ inReach pt c')
     /\ (forall c, chosen = Some c ->
           (c ∈ take 8 locations ++ drop 9 locations)
           /\ inReach pt c
           /\ (forall c', c' ∈ take 8 locations ++ drop 9 locations ->
                          inReach pt c' -> distance c pt <= distance c' pt)))
  /\ (forall drop,
        Vector2.rawX drop = None ->
        chooseOpenLocation drop (Some <$> locations) w = (Normal None, w)).
Proof.
  assert (Hleft : snd (Js.splice (Some <$> locations) 8 1)
                  = Some <$> (take 8 locations ++ drop 9 locations)).
  { change 8%Z with (Z.of_nat 8). rewrite splice_rest.
    now rewrite fmap_app, fmap_take, fmap_drop. }
  assert (Hin : forall c', Some c' ∈ Some <$> (take 8 locations ++ drop 9 locations)
                           <-> c' ∈ take 8 locations ++ drop 9 locations).
  { intros c'. rewrite list_elem_of_fmap. split.
    - intros (c0 & Heq & H0). now inversion Heq; subst.
    - intros H0. now exists c'. }
  split.
  - eexists. split; [apply chooseOpenLocation_ignores_masses |].
    rewrite Hleft.
    pose proof (closer_fold pt (Some <$> (take 8 locations ++ drop 9 locations)) None)
      as H.
    destruct (fold_left (closer (Vector2.raw_of pt)) _ None) as [c |].
    + destruct H as ([Hc | [Hc Hr]] & _ & Hmin); [discriminate Hc |].
      split.
      * split; [discriminate |]. intros Hnone. exfalso.
        apply (Hnone c); [now apply Hin | exact Hr].
      * intros c0 Heq. inversion Heq; subst c0.
        split; [now apply Hin |]. split; [exact Hr |].
        intros c' Hc' Hr'. apply Hmin; [now apply Hin | exact Hr'].
    + destruct H as (_ & Hnone). split.
      * split; [| reflexivity]. intros _ c' Hc'. apply Hnone. now apply Hin.
      * intros c0 Heq. discriminate Heq.
  - intros drop Hx. rewrite chooseOpenLocation_ignores_masses.
    now rewrite closer_fold_no_number.
Qed.

(** X15.  [getSnapToLocations] throws a [TypeError] on every plank and
    leaves the world as it was: its array is made by [new Array], which has
    no method [add]. *)
Theorem getSnapToLocations_never_returns (w : World) :
  getSnapToLocations w
  = (Throw (TypeError "snapToLocations.add is not a function"), w).
Proof. apply getSnapToLocations_throws. Qed.

End More.

(** ** Properties of the stack of bricks *)

Lemma bricks_extent (n : nat) : forall origin pt,
  pt ∈ BrickStack.points (BrickStack.bricks n origin) ->
  Vector2.x origin - BrickStack.BRICK_WIDTH / 2 <= Vector2.x pt
  /\ Vector2.x pt <= Vector2.x origin + BrickStack.BRICK_WIDTH / 2
  /\ Vector2.y origin <= Vector2.y pt
  /\ Vector2.y pt
     <= Vector2.y origin + inject_Z (Z.of_nat n) * BrickStack.BRICK_HEIGHT.
Proof.
  assert (Hh : 0 <= BrickStack.BRICK_HEIGHT) by (apply Qle_bool_iff; reflexivity).
  assert (Hw : 0 <= BrickStack.BRICK_WIDTH / 2) by (apply Qle_bool_iff; reflexivity).
  induction n as [| n IH]; intros origin pt Hin.
  - inversion Hin.
  - cbn [BrickStack.bricks] in Hin. unfold BrickStack.points in Hin.
    rewrite flat_map_app in Hin. apply elem_of_app in Hin.
    rewrite Nat2Z.inj_succ. unfold Z.succ. rewrite inject_Z_plus.
    change (inject_Z 1) with 1.
    assert (Hn : 0 <= inject_Z (Z.of_nat n) * BrickStack.BRICK_HEIGHT).
    { apply Qmult_le_0_compat; [| exact Hh].
      change 0 with (inject_Z 0). rewrite <- Zle_Qle. lia. }
    destruct Hin as [Hin | Hin].
    + cbn in Hin. apply list_elem_of_In in Hin. cbn in Hin.
      destruct Hin as [<- | [<- | [<- | [<- | [<- | [<- | []]]]]]];
        cbn [Vector2.x Vector2.y];
        repeat match goal with |- _ /\ _ => split end; lra.
    + apply IH in Hin. cbn [Vector2.x Vector2.y] in Hin.
      destruct Hin as (H1 & H2 & H3 & H4).
      repeat match goal with |- _ /\ _ => split end; lra.
Qed.

Lemma bricks_length (n : nat) : forall origin,
  length (BrickStack.bricks n origin) = (7 * n)%nat.
Proof.
  induction n as [| n IH]; intros origin; [reflexivity |].
  cbn [BrickStack.bricks]. rewrite length_app, IH. cbn [BrickStack.brick length]. lia.
Qed.

Lemma bricks_top (n : nat) : forall origin,
  exists pt,
    pt ∈ BrickStack.points (BrickStack.bricks (S n) origin)
    /\ Vector2.y pt
       == Vector2.y origin + inject_Z (Z.of_nat (S n)) * BrickStack.BRICK_HEIGHT.
Proof.
  induction n as [| n IH]; intros origin.
  - exists (Vector2.mk (Vector2.x origin + BrickStack.BRICK_WIDTH / 2)
                       (Vector2.y origin + BrickStack.BRICK_HEIGHT)).
    split; [| cbn; ring].
    cbn. apply list_elem_of_In. cbn. tauto.
  - destruct (IH (Vector2.mk (Vector2.x origin)
                             (Vector2.y origin + BrickStack.BRICK_HEIGHT)))
      as (pt & Hin & Hy).
    exists pt. split.
    + change (BrickStack.bricks (S (S n)) origin)
        with (BrickStack.brick origin
              ++ BrickStack.bricks (S n)
                   (Vector2.mk (Vector2.x origin)
                               (Vector2.y origin + BrickStack.BRICK_HEIGHT))).
      unfold BrickStack.points. rewrite flat_map_app. apply elem_of_app. now right.
    + rewrite Hy. cbn [Vector2.y].
      rewrite (Nat2Z.inj_succ (S n)). unfold Z.succ. rewrite inject_Z_plus. ring.
Qed.


(** *** Removing again and again *)

(** X17.  A mass that is on the plank is still on it after any number of
    [removeMassFromSurface] calls for it: after the first call, and after
    every further one, the list of masses holds that mass alone. *)
Theorem removeMassFromSurface_never_removes (w : World) (mass : MassId) (n : nat) :
  mass ∈ massesOnSurface (plank w) ->
  massesOnSurface
    (plank (Nat.iter (S n) (exec (removeMassFromSurface mass)) w))
  = [mass].
Proof.
  intros Hin. induction n as [| n IH].
  - cbn [Nat.iter nat_rect]. now apply removeMassFromSurface_attached.
  - change (Nat.iter (S (S n)) (exec (removeMassFromSurface mass)) w)
      with (exec (removeMassFromSurface mass)
              (Nat.iter (S n) (exec (removeMassFromSurface mass)) w)).
    apply removeMassFromSurface_attached. rewrite IH. left.
Qed.

(** X18.  On a plank whose [massDistancePairs] has no indexed element, as
    the lines that attach a mass leave it, [removeMassFromSurface] ends
    normally and removes neither a force vector nor a distance record. *)
Theorem removeMassFromSurface_keeps_vectors (w : World) (mass : MassId) :
  Js.elems (massDistancePairs (plank w)) = [] ->
  outcome (removeMassFromSurface mass) w = Normal tt
  /\ forceVectors (plank (exec (removeMassFromSurface mass) w))
     = forceVectors (plank w)
  /\ massDistancePairs (plank (exec (removeMassFromSurface mass) w))
     = massDistancePairs (plank w).
Proof. apply removeMassFromSurface_no_pairs. Qed.

(** *** Witnesses of the further properties *)

Lemma reachable_plank_never_loaded_witness :
  reachable (G := level_geometry) busyWorld
  /\ massesOnSurface (plank busyWorld) = []
  /\ isBalanced busyWorld = (Normal true, busyWorld).
Proof.
  destruct (reachable_plank_never_loaded (G := level_geometry) busyWorld
              busyWorld_reachable) as (Hm & _ & _ & Hb & _).
  exact (conj busyWorld_reachable (conj Hm Hb)).
Defined.

Lemma step_dead_bands_witness :
  userControlled (plank freshWorld) = false
  /\ (angularVelocity (plank (exec (step (G := level_geometry) 1) freshWorld)) = 0
      \/ 0.00001
         < Qabs (angularVelocity (plank (exec (step (G := level_geometry) 1) freshWorld)))).
Proof.
  destruct (step_dead_bands (G := level_geometry) freshWorld 1 eq_refl) as [_ Hv].
  exact (conj eq_refl Hv).
Defined.

Lemma updateNetTorque_turns_back_at_limit_witness :
  String.eqb (columnState (plank tiltedWorld)) "none" = true
  /\ 0.001 <= maxTiltAngle (plank tiltedWorld)
  /\ maxTiltAngle (plank tiltedWorld) - tiltAngle (plank tiltedWorld) < 0.001
  /\ currentNetTorque (updateNetTorque (plank tiltedWorld)) = -1
  /\ turningRight (updateNetTorque (plank tiltedWorld)) = false.
Proof.
  assert (Hmax : 0.001 <= maxTiltAngle (plank tiltedWorld))
    by (apply Qle_bool_iff; reflexivity).
  assert (Hnear : maxTiltAngle (plank tiltedWorld) - tiltAngle (plank tiltedWorld)
                  < 0.001)
    by reflexivity.
  destruct (updateNetTorque_turns_back_at_limit (plank tiltedWorld) eq_refl Hmax)
    as (Hhigh & _).
  destruct (Hhigh Hnear) as [Ht Hd].
  exact (conj eq_refl (conj Hmax (conj Hnear (conj Ht Hd)))).
Defined.

Lemma addMassToSurfaceAt_spoils_position_witness :
  PLANK_LENGTH / 2 < 3
  /\ Vector2.rawX (Mass.position (mass_of freshWorld 1%nat)) = Some (-0.5)
  /\ outcome (addMassToSurfaceAt (G := level_geometry) 1%nat 3) freshWorld
     = Throw AssertionFailed
  /\ Vector2.rawX
       (Mass.position
          (mass_of (exec (addMassToSurfaceAt (G := level_geometry) 1%nat 3) freshWorld)
                   1%nat))
     = None.
Proof.
  assert (Hd : PLANK_LENGTH / 2 < 3) by reflexivity.
  destruct (addMassToSurfaceAt_spoils_position (G := level_geometry) freshWorld
              1%nat 3 Hd) as (Ho & Hx & _).
  exact (conj Hd (conj eq_refl (conj Ho Hx))).
Defined.

Lemma propped_still_plank_stays_witness :
  String.eqb (columnState (plank leveledWorld)) "none" = false
  /\ angularVelocity (plank leveledWorld) == 0
  /\ Qabs (tiltAngle (plank leveledWorld)) <= maxTiltAngle (plank leveledWorld)
  /\ Forall (fun w' => tiltAngle (plank w') == tiltAngle (plank leveledWorld)
                       /\ angularVelocity (plank w') == 0)
            (stepTrace (G := level_geometry) [1; 1000] leveledWorld).
Proof.
  assert (Hv : angularVelocity (plank leveledWorld) == 0) by reflexivity.
  assert (Hmax : Qabs (tiltAngle (plank leveledWorld))
                 <= maxTiltAngle (plank leveledWorld))
    by (apply Qle_bool_iff; reflexivity).
  assert (Hband : tiltAngle (plank leveledWorld) == 0
                  \/ 0.0001 <= Qabs (tiltAngle (plank leveledWorld)))
    by (left; reflexivity).
  exact (conj eq_refl
           (conj Hv
              (conj Hmax
                 (propped_still_plank_stays (G := level_geometry) leveledWorld
                    [1; 1000] eq_refl Hv Hmax Hband)))).
Defined.

Lemma removeMassFromSurface_never_removes_witness :
  1%nat ∈ massesOnSurface (plank loadedWorld)
  /\ massesOnSurface
       (plank (Nat.iter 3 (exec (removeMassFromSurface 1%nat)) loadedWorld))
     = [1%nat].
Proof.
  assert (Hin : 1%nat ∈ massesOnSurface (plank loadedWorld)) by (cbn; left).
  exact (conj Hin (removeMassFromSurface_never_removes loadedWorld 1%nat 2 Hin)).
Defined.

Lemma removeMassFromSurface_keeps_vectors_witness :
  Js.elems (massDistancePairs (plank loadedWorld)) = []
  /\ outcome (removeMassFromSurface 2%nat) loadedWorld = Normal tt
  /\ forceVectors (plank (exec (removeMassFromSurface 2%nat) loadedWorld))
     = forceVectors (plank loadedWorld).
Proof.
  destruct (removeMassFromSurface_keeps_vectors loadedWorld 2%nat eq_refl)
    as (Ho & Hv & _).
  exact (conj eq_refl (conj Ho Hv)).
Defined.
